(** * K'artz chat backend: the message relay and the history endpoint

    A shallow embedding of [server.js] (both versions of the file that the
    repository carries) and of the two Mongoose schemas in
    [models/Message.js] ([Message] and [Chat]).

    The handlers are written as programs over the external calls they
    await ([Chat.findOne], [Chat.create], [chat.save], [Message.create],
    [Message.find(..).sort(..)], [model.generateContent], [Date.now],
    [socket.emit]).  A program is run against a document store; what the
    outside world decides at each call (a store or generator fault, the
    generated text, the reading of the wall clock) is supplied by a
    script, so every statement below quantifies over all such decisions.
    Each call leaves one entry in the log of the run. *)

From Stdlib Require Import String Ascii List ZArith NArith Lia Bool.
From Stdlib Require Import Permutation Sorted DecimalString.
Import ListNotations.
Open Scope string_scope.
Open Scope list_scope.

(** ** JavaScript values that reach the handlers *)

(** A property that is a string when present; [None] is [undefined]. *)
Definition JsString := option string.

(** [!!v] for such a value: [undefined] and the empty string are falsy. *)
Definition truthy (v : JsString) : bool :=
  match v with
  | Some s => negb (s =? "")
  | None => false
  end.

(** [v || d]. *)
Definition js_or (v : JsString) (d : string) : string :=
  match v with
  | Some s => if s =? "" then d else s
  | None => d
  end.

(** [String(v)]: what a template literal and a schema cast make of [v]. *)
Definition js_String (v : JsString) : string :=
  match v with
  | Some s => s
  | None => "undefined"
  end.

(** Decimal rendering of an integral number, as [String(n)] or ['' + n]. *)
Definition number_toString (n : Z) : string :=
  NilZero.string_of_int (Z.to_int n).

Definition newline : string := String (ascii_of_nat 10) EmptyString.

(** ** Object ids *)

(** A Mongo [ObjectId] is a 96-bit value; [toString()] renders it as 24
    lower-case hexadecimal digits. *)
Definition ObjectId := N.

Definition hex_digit (d : N) : ascii :=
  match d with
  | 0%N => "0" | 1%N => "1" | 2%N => "2" | 3%N => "3"
  | 4%N => "4" | 5%N => "5" | 6%N => "6" | 7%N => "7"
  | 8%N => "8" | 9%N => "9" | 10%N => "a" | 11%N => "b"
  | 12%N => "c" | 13%N => "d" | 14%N => "e" | _ => "f"
  end%char.

Fixpoint hex_fixed (width : nat) (n : N) : string :=
  match width with
  | O => ""
  | S k => hex_fixed k (N.div n 16) ++ String (hex_digit (N.modulo n 16)) ""
  end.

Definition ObjectId_toString (i : ObjectId) : string := hex_fixed 24 i.

(** ** Documents (models/Message.js) *)

Module Message.
(** The argument of [Message.create]. *)
Record fields := {
  f_chatId : ObjectId;
  f_content : JsString;
  f_senderType : JsString;
  f_senderName : JsString;
  f_senderUid : JsString
}.

(** A stored document; [{ timestamps: true }] adds the two dates. *)
Record t := {
  _id : ObjectId;
  chatId : ObjectId;
  content : string;
  senderType : string;
  senderName : string;
  senderUid : JsString;
  createdAt : Z;
  updatedAt : Z
}.

(** [enum: ['user', 'ai', 'human_agent']] *)
Definition senderType_enum : list string := ["user"; "ai"; "human_agent"].
End Message.

Module Chat.
Record fields := {
  f_userId : JsString;
  f_userEmail : JsString;
  f_status : JsString
}.

Record t := {
  _id : ObjectId;
  userId : string;
  userEmail : string;
  status : string;
  lastMessageAt : Z;
  createdAt : Z;
  updatedAt : Z
}.

(** [enum: ['ai_active', 'human_needed', 'human_active', 'closed']] *)
Definition status_enum : list string :=
  ["ai_active"; "human_needed"; "human_active"; "closed"].
End Chat.

(** ** What travels over the socket *)

(** The payload of an inbound [send_message] event. *)
Module Payload.
Record t := {
  uid : JsString;
  email : JsString;
  content : JsString;
  senderName : JsString
}.
End Payload.

(** The payload of an outbound [receive_message] event, which is also the
    shape of one entry of the history response. *)
Module Reply.
Record t := {
  id : string;
  content : string;
  senderType : string;
  senderName : string;
  timestamp : Z
}.
End Reply.

Definition SocketId := string.

(** ** Errors *)

Inductive Error :=
| TypeError                              (* property read on [undefined] *)
| ValidationError (paths : list string)  (* Mongoose schema validation *)
| DuplicateKey                           (* unique index violated *)
| DocumentNotFound                       (* [save] of a vanished document *)
| StoreUnavailable                       (* any other fault of the store *)
| GenerationFailed.                      (* the generator errs, times out or throws *)

Definition Result (A : Type) : Type := (Error + A)%type.

(** ** The external calls *)

Inductive Op : Type -> Type :=
| Chat_findOne (userId : string) : Op (option Chat.t)
| Chat_create (f : Chat.fields) : Op Chat.t
| Chat_save (doc : Chat.t) : Op Chat.t
| Message_create (f : Message.fields) : Op Message.t
| Message_find_sort (chatId : ObjectId) : Op (list Message.t)
| generateContent (prompt : string) : Op string   (* lines 198-200 as one *)
| Date_now : Op Z
| socket_emit (socket : SocketId) (event : string) (payload : Reply.t) : Op unit.

(** One log entry per call: the call and how it ended. *)
Inductive Action :=
| ThreadLookup (userId : string) (r : Result (option Chat.t))
| ThreadCreate (f : Chat.fields) (r : Result Chat.t)
| ThreadSave (doc : Chat.t) (r : Result Chat.t)
| MessageWrite (f : Message.fields) (r : Result Message.t)
| MessageRead (chatId : ObjectId) (r : Result (list Message.t))
| Generation (prompt : string) (r : Result string)
| ClockRead (now : Z)
| Emission (socket : SocketId) (event : string) (payload : Reply.t).

Definition record_call {X} (op : Op X) : Result X -> Action :=
  match op in Op X return Result X -> Action with
  | Chat_findOne u => fun r => ThreadLookup u r
  | Chat_create f => fun r => ThreadCreate f r
  | Chat_save d => fun r => ThreadSave d r
  | Message_create f => fun r => MessageWrite f r
  | Message_find_sort c => fun r => MessageRead c r
  | generateContent p => fun r => Generation p r
  | Date_now => fun r => ClockRead (match r with inr t => t | inl _ => 0%Z end)
  | socket_emit s e p => fun _ => Emission s e p
  end.

(** ** The document store *)

Record Store := {
  chats : list Chat.t;
  messages : list Message.t;
  next_id : ObjectId      (* the next identifier the store hands out *)
}.

Definition empty_store : Store :=
  {| chats := []; messages := []; next_id := 0%N |}.

(** What the outside world decides at one call. *)
Record Choice := {
  fault : bool;      (* the store or the generator fails at this call *)
  answer : string;   (* the text the generator returns when it does not *)
  built : Z;         (* the wall clock when [create] built its document *)
  clock : Z          (* the wall clock, in milliseconds, at this call *)
}.

Definition Script := list Choice.

Definition calm : Choice :=
  {| fault := false; answer := ""; built := 0%Z; clock := 0%Z |}.

Definition next_choice (s : Script) : Choice := hd calm s.

(** *** Schema validation *)

(** [required: true] on a [String] path rejects [undefined] and [""]. *)
Definition check_required (path : string) (v : JsString) : list string :=
  if truthy v then [] else [path].

(** [enum: [...]] is checked on present values only. *)
Definition check_enum (path : string) (allowed : list string) (v : JsString)
  : list string :=
  match v with
  | Some s => if existsb (String.eqb s) allowed then [] else [path]
  | None => []
  end.

Definition Message_validate (f : Message.fields) : list string :=
  check_required "content" (Message.f_content f)
  ++ check_required "senderType" (Message.f_senderType f)
  ++ check_enum "senderType" Message.senderType_enum (Message.f_senderType f)
  ++ check_required "senderName" (Message.f_senderName f).

(** [status] has [default: 'ai_active'] and is not required. *)
Definition Chat_validate (f : Chat.fields) : list string :=
  check_required "userId" (Chat.f_userId f)
  ++ check_required "userEmail" (Chat.f_userEmail f)
  ++ check_enum "status" Chat.status_enum (Chat.f_status f).

Definition is_nil {A} (l : list A) : bool :=
  match l with [] => true | _ => false end.

(** *** Reads *)

Definition has_userId (u : string) (c : Chat.t) : bool := Chat.userId c =? u.

Definition findOne_by_userId (u : string) (st : Store) : option Chat.t :=
  find (has_userId u) (chats st).

Definition in_chat (cid : ObjectId) (m : Message.t) : bool :=
  N.eqb (Message.chatId m) cid.

(** [.sort({ createdAt: 1 })]: ascending; documents with equal dates keep
    their insertion order. *)
Fixpoint insert_by_createdAt (m : Message.t) (l : list Message.t)
  : list Message.t :=
  match l with
  | [] => [m]
  | x :: l' =>
      if Z.leb (Message.createdAt m) (Message.createdAt x)
      then m :: x :: l'
      else x :: insert_by_createdAt m l'
  end.

Definition sort_by_createdAt (l : list Message.t) : list Message.t :=
  fold_right insert_by_createdAt [] l.

(** *** Writes *)

Definition new_message (i : ObjectId) (now : Z) (f : Message.fields)
  : Message.t :=
  {| Message._id := i;
     Message.chatId := Message.f_chatId f;
     Message.content := js_String (Message.f_content f);
     Message.senderType := js_String (Message.f_senderType f);
     Message.senderName := js_String (Message.f_senderName f);
     Message.senderUid := Message.f_senderUid f;   (* default: null *)
     Message.createdAt := now;
     Message.updatedAt := now |}.

(** The [lastMessageAt] default ([Date.now]) is taken when the document
    is built, at the clock reading [built]; the two timestamps are set
    when it is saved, at the reading [now]. *)
Definition new_chat (i : ObjectId) (built now : Z) (f : Chat.fields)
  : Chat.t :=
  {| Chat._id := i;
     Chat.userId := js_String (Chat.f_userId f);
     Chat.userEmail := js_String (Chat.f_userEmail f);
     Chat.status := js_or (Chat.f_status f) "ai_active";
     Chat.lastMessageAt := built;                   (* default: Date.now *)
     Chat.createdAt := now;
     Chat.updatedAt := now |}.

(** [save] writes the modified path ([lastMessageAt]) and [updatedAt]. *)
Definition touched (now : Z) (doc stored : Chat.t) : Chat.t :=
  {| Chat._id := Chat._id stored;
     Chat.userId := Chat.userId stored;
     Chat.userEmail := Chat.userEmail stored;
     Chat.status := Chat.status stored;
     Chat.lastMessageAt := Chat.lastMessageAt doc;
     Chat.createdAt := Chat.createdAt stored;
     Chat.updatedAt := now |}.

Definition same_id (doc : Chat.t) (c : Chat.t) : bool :=
  N.eqb (Chat._id c) (Chat._id doc).

Definition update_chat (now : Z) (doc : Chat.t) (l : list Chat.t)
  : list Chat.t :=
  map (fun c => if same_id doc c then touched now doc c else c) l.

(** *** One call against the store *)

Definition exec {X} (op : Op X) (c : Choice) (st : Store)
  : Result X * Store :=
  match op in Op X return Result X * Store with
  | Chat_findOne u =>
      if fault c then (inl StoreUnavailable, st)
      else (inr (findOne_by_userId u st), st)
  | Chat_create f =>
      if negb (is_nil (Chat_validate f))
      then (inl (ValidationError (Chat_validate f)), st)
      else if fault c then (inl StoreUnavailable, st)
      else if existsb (has_userId (js_String (Chat.f_userId f))) (chats st)
      then (inl DuplicateKey, st)                  (* [unique: true] *)
      else
        let doc := new_chat (next_id st) (built c) (clock c) f in
        (inr doc,
         {| chats := chats st ++ [doc];
            messages := messages st;
            next_id := N.succ (next_id st) |})
  | Chat_save doc =>
      if fault c then (inl StoreUnavailable, st)
      else if negb (existsb (same_id doc) (chats st))
      then (inl DocumentNotFound, st)
      else
        (inr (touched (clock c) doc doc),
         {| chats := update_chat (clock c) doc (chats st);
            messages := messages st;
            next_id := next_id st |})
  | Message_create f =>
      if negb (is_nil (Message_validate f))
      then (inl (ValidationError (Message_validate f)), st)
      else if fault c then (inl StoreUnavailable, st)
      else
        let doc := new_message (next_id st) (clock c) f in
        (inr doc,
         {| chats := chats st;
            messages := messages st ++ [doc];
            next_id := N.succ (next_id st) |})
  | Message_find_sort cid =>
      if fault c then (inl StoreUnavailable, st)
      else (inr (sort_by_createdAt (filter (in_chat cid) (messages st))), st)
  | generateContent _ =>
      if fault c then (inl GenerationFailed, st)
      else (inr (answer c), st)
  | Date_now => (inr (clock c), st)
  | socket_emit _ _ _ => (inr tt, st)
  end.

(** ** Programs *)

Inductive Prog (A : Type) : Type :=
| Ret (a : A)
| Throw (e : Error)
| Do {X : Type} (op : Op X) (k : Result X -> Prog A).

Arguments Ret {A} a.
Arguments Throw {A} e.
Arguments Do {A X} op k.

Fixpoint bind {A B} (p : Prog A) (k : A -> Prog B) : Prog B :=
  match p with
  | Ret a => k a
  | Throw e => Throw e
  | Do op h => Do op (fun r => bind (h r) k)
  end.

(** [try { p } catch (error) { h error }] *)
Fixpoint try_catch {A} (p : Prog A) (h : Error -> Prog A) : Prog A :=
  match p with
  | Ret a => Ret a
  | Throw e => h e
  | Do op k => Do op (fun r => try_catch (k r) h)
  end.

(** A call whose failure is thrown; [await op] for the asynchronous ones. *)
Definition call {X} (op : Op X) : Prog X :=
  Do op (fun r => match r with inl e => Throw e | inr x => Ret x end).

Abbreviation await := call (only parsing).

Declare Scope prog_scope.
Delimit Scope prog_scope with prog.
Notation "x <- p ;; k" := (bind p (fun x => k))
  (at level 61, p at next level, right associativity) : prog_scope.
Notation "p ;; k" := (bind p (fun _ => k))
  (at level 61, right associativity) : prog_scope.
Open Scope prog_scope.

(** *** Running a program to completion *)

Record Run (A : Type) := {
  result : Result A;        (* [inl e]: [e] escaped the program *)
  store : Store;            (* the store afterwards *)
  log : list Action;        (* the calls made, oldest first *)
  rest : Script             (* the decisions not consumed *)
}.

Arguments result {A} r.
Arguments store {A} r.
Arguments log {A} r.
Arguments rest {A} r.

Definition logged {A} (a : Action) (r : Run A) : Run A :=
  {| result := result r; store := store r;
     log := a :: log r; rest := rest r |}.

Fixpoint run {A} (p : Prog A) (s : Script) (st : Store) : Run A :=
  match p with
  | Ret a => {| result := inr a; store := st; log := []; rest := s |}
  | Throw e => {| result := inl e; store := st; log := []; rest := s |}
  | Do op k =>
      let r := exec op (next_choice s) st in
      logged (record_call op (fst r)) (run (k (fst r)) (tl s) (snd r))
  end.

(** The run [r] continued, when it returned a value, by [f]. *)
Definition run_then {A B} (r : Run A)
  (f : A -> Script -> Store -> Run B) : Run B :=
  match result r with
  | inl e =>
      {| result := inl e; store := store r; log := log r; rest := rest r |}
  | inr a =>
      let r' := f a (rest r) (store r) in
      {| result := result r'; store := store r';
         log := log r ++ log r'; rest := rest r' |}
  end.

(** The run [r] continued, when an error escaped it, by [h]. *)
Definition run_else {A} (r : Run A)
  (h : Error -> Script -> Store -> Run A) : Run A :=
  match result r with
  | inr a =>
      {| result := inr a; store := store r; log := log r; rest := rest r |}
  | inl e =>
      let r' := h e (rest r) (store r) in
      {| result := result r'; store := store r';
         log := log r ++ log r'; rest := rest r' |}
  end.

Definition returns {A} (r : Run A) : Prop := exists a, result r = inr a.

(** ** server.js *)

Section Server.

(** The content of [secure_prompts/kartz_system_prompt.txt], read once
    when the process starts. *)
Variable SYSTEM_PROMPT : string.

Definition fullPrompt (data : Payload.t) : string :=
  SYSTEM_PROMPT ++ newline ++ newline
  ++ "Client Question: " ++ js_String (Payload.content data) ++ newline
  ++ "K'artz Assistant Answer:".

Definition apology : string :=
  "I apologize, I am having trouble processing your request right now. Please try again later.".

(** [msg => ({ id: msg._id.toString(), ... })], the projection of the
    endpoint; the socket reply is built from the same five fields. *)
Definition formatted (msg : Message.t) : Reply.t :=
  {| Reply.id := ObjectId_toString (Message._id msg);
     Reply.content := Message.content msg;
     Reply.senderType := Message.senderType msg;
     Reply.senderName := Message.senderName msg;
     Reply.timestamp := Message.createdAt msg |}.

(** *** GET /api/chat-history/:uid (the same text in both versions) *)

Inductive Response :=
| json (status : nat) (body : list Reply.t)
| json_error (status : nat) (error : string).

Definition chat_history (uid : string) : Prog Response :=
  if uid =? "" then Ret (json_error 400 "Missing user UID")
  else
    try_catch
      (chat <- await (Chat_findOne uid) ;;
       match chat with
       | None => Ret (json 200 [])
       | Some chat =>
           rawMessages <- await (Message_find_sort (Chat._id chat)) ;;
           Ret (json 200 (map formatted rawMessages))
       end)
      (fun error =>
         Ret (json_error 500 "Internal Server Error fetching history")).

(** *** socket.on('send_message', ...) *)

(** [!data.uid || !data.email || !data.content] *)
Definition missing_data (data : Payload.t) : bool :=
  negb (truthy (Payload.uid data))
  || negb (truthy (Payload.email data))
  || negb (truthy (Payload.content data)).

Definition set_lastMessageAt (now : Z) (chat : Chat.t) : Chat.t :=
  {| Chat._id := Chat._id chat;
     Chat.userId := Chat.userId chat;
     Chat.userEmail := Chat.userEmail chat;
     Chat.status := Chat.status chat;
     Chat.lastMessageAt := now;
     Chat.createdAt := Chat.createdAt chat;
     Chat.updatedAt := Chat.updatedAt chat |}.

(** The first version of the file (lines 149-239). *)
Definition send_message_v1 (socket : SocketId) (data : option Payload.t)
  : Prog unit :=
  match data with
  | None => Throw TypeError                 (* [data.uid] on [undefined] *)
  | Some data =>
      if missing_data data then Ret tt
      else
        try_catch
          (found <- await (Chat_findOne (js_String (Payload.uid data))) ;;
           chat <-
             match found with
             | None =>
                 await (Chat_create
                          {| Chat.f_userId := Payload.uid data;
                             Chat.f_userEmail := Payload.email data;
                             Chat.f_status := Some "ai_active" |})
             | Some chat =>
                 now <- call Date_now ;;
                 await (Chat_save (set_lastMessageAt now chat))
             end ;;
           userMessageDoc <-
             await (Message_create
                      {| Message.f_chatId := Chat._id chat;
                         Message.f_content := Payload.content data;
                         Message.f_senderType := Some "user";
                         Message.f_senderName :=
                           Some (js_or (Payload.senderName data) "Client");
                         Message.f_senderUid := Payload.uid data |}) ;;
           aiText <- await (generateContent (fullPrompt data)) ;;
           aiMessageDoc <-
             await (Message_create
                      {| Message.f_chatId := Chat._id chat;
                         Message.f_content := Some aiText;
                         Message.f_senderType := Some "ai";
                         Message.f_senderName := Some "K'artz Assistant";
                         Message.f_senderUid := None |}) ;;
           let formattedAiMsg :=
             {| Reply.id := ObjectId_toString (Message._id aiMessageDoc);
                Reply.content := Message.content aiMessageDoc;
                Reply.senderType := Message.senderType aiMessageDoc;
                Reply.senderName := Message.senderName aiMessageDoc;
                Reply.timestamp := Message.createdAt aiMessageDoc |} in
           call (socket_emit socket "receive_message" formattedAiMsg))
          (fun error =>
             id_now <- call Date_now ;;
             stamp <- call Date_now ;;
             call (socket_emit socket "receive_message"
                     {| Reply.id := "temp_error_" ++ number_toString id_now;
                        Reply.content := apology;
                        Reply.senderType := "ai";
                        Reply.senderName := "System Error";
                        Reply.timestamp := stamp |}))
  end.

(** The second version of the file (lines 359-399). *)
Definition send_message_v2 (socket : SocketId) (data : option Payload.t)
  : Prog unit :=
  match data with
  | None => Throw TypeError
  | Some data =>
      if missing_data data then Ret tt
      else
        try_catch
          (found <- await (Chat_findOne (js_String (Payload.uid data))) ;;
           chat <-
             match found with
             | None =>
                 await (Chat_create
                          {| Chat.f_userId := Payload.uid data;
                             Chat.f_userEmail := Payload.email data;
                             Chat.f_status := Some "ai_active" |})
             | Some chat =>
                 now <- call Date_now ;;
                 await (Chat_save (set_lastMessageAt now chat))
             end ;;
           await (Message_create
                    {| Message.f_chatId := Chat._id chat;
                       Message.f_content := Payload.content data;
                       Message.f_senderType := Some "user";
                       Message.f_senderName := Payload.senderName data;
                       Message.f_senderUid := Payload.uid data |}) ;;
           aiText <- await (generateContent (fullPrompt data)) ;;
           aiMessageDoc <-
             await (Message_create
                      {| Message.f_chatId := Chat._id chat;
                         Message.f_content := Some aiText;
                         Message.f_senderType := Some "ai";
                         Message.f_senderName := Some "K'artz Assistant";
                         Message.f_senderUid := None |}) ;;
           call (socket_emit socket "receive_message"
                   {| Reply.id := ObjectId_toString (Message._id aiMessageDoc);
                      Reply.content := Message.content aiMessageDoc;
                      Reply.senderType := Message.senderType aiMessageDoc;
                      Reply.senderName := Message.senderName aiMessageDoc;
                      Reply.timestamp := Message.createdAt aiMessageDoc |}))
          (fun error => Ret tt)             (* only [console.error] *)
  end.

End Server.

(** ** The two versions side by side, and calls one after the other *)

Inductive Version := V1 | V2.

Definition send_message (SYSTEM_PROMPT : string) (v : Version)
  : SocketId -> option Payload.t -> Prog unit :=
  match v with
  | V1 => send_message_v1 SYSTEM_PROMPT
  | V2 => send_message_v2 SYSTEM_PROMPT
  end.

(** One inbound event together with what the world decides while it is
    handled. *)
Record Call := {
  version : Version;
  socket : SocketId;
  data : option Payload.t;
  script : Script
}.

Definition handle (SYSTEM_PROMPT : string) (st : Store) (c : Call) : Store :=
  store (run (send_message SYSTEM_PROMPT (version c) (socket c) (data c))
             (script c) st).

Definition handle_all (SYSTEM_PROMPT : string) (calls : list Call)
  (st : Store) : Store :=
  fold_left (handle SYSTEM_PROMPT) calls st.

(** ** Handlers in flight at the same time

    Node.js runs a handler until it awaits and may then switch to another
    one.  A node is the store, the handlers that have started and not
    finished, and the journal of all calls made so far. *)

Record Node := {
  node_store : Store;
  in_flight : list (Prog unit);
  journal : list Action
}.

Definition finished {A} (p : Prog A) : bool :=
  match p with
  | Do _ _ => false
  | _ => true
  end.

Inductive node_step (SYSTEM_PROMPT : string) : Node -> Node -> Prop :=
| event_arrives : forall n v sock d,
    node_step SYSTEM_PROMPT n
      {| node_store := node_store n;
         in_flight := in_flight n ++ [send_message SYSTEM_PROMPT v sock d];
         journal := journal n |}
| call_completes : forall n before X (op : Op X) k after c,
    in_flight n = before ++ Do op k :: after ->
    node_step SYSTEM_PROMPT n
      {| node_store := snd (exec op c (node_store n));
         in_flight := before ++ k (fst (exec op c (node_store n))) :: after;
         journal :=
           journal n ++ [record_call op (fst (exec op c (node_store n)))] |}
| handler_returns : forall n before p after,
    in_flight n = before ++ p :: after ->
    finished p = true ->
    node_step SYSTEM_PROMPT n
      {| node_store := node_store n;
         in_flight := before ++ after;
         journal := journal n |}.

Inductive node_steps (SYSTEM_PROMPT : string) : Node -> Node -> Prop :=
| steps_none : forall n, node_steps SYSTEM_PROMPT n n
| steps_more : forall n1 n2 n3,
    node_steps SYSTEM_PROMPT n1 n2 ->
    node_step SYSTEM_PROMPT n2 n3 ->
    node_steps SYSTEM_PROMPT n1 n3.

(** ** Reading a log *)

Definition emitted (l : list Action) : list (SocketId * string * Reply.t) :=
  flat_map (fun a => match a with
                     | Emission s e p => [(s, e, p)]
                     | _ => []
                     end) l.

(** The Message documents the store accepted. *)
Definition persisted_messages (l : list Action) : list Message.t :=
  flat_map (fun a => match a with
                     | MessageWrite _ (inr m) => [m]
                     | _ => []
                     end) l.

(** The Chat documents the store created or saved. *)
Definition thread_writes (l : list Action) : list Chat.t :=
  flat_map (fun a => match a with
                     | ThreadCreate _ (inr c) => [c]
                     | ThreadSave _ (inr c) => [c]
                     | _ => []
                     end) l.

Definition store_writes (l : list Action) : nat :=
  length (thread_writes l) + length (persisted_messages l).

Definition rejected {A} (r : Result A) : bool :=
  match r with inl _ => true | inr _ => false end.

(** The call ended in an error. *)
Definition failed (a : Action) : bool :=
  match a with
  | ThreadLookup _ r => rejected r
  | ThreadCreate _ r => rejected r
  | ThreadSave _ r => rejected r
  | MessageWrite _ r => rejected r
  | MessageRead _ r => rejected r
  | Generation _ r => rejected r
  | ClockRead _ => false
  | Emission _ _ _ => false
  end.

Definition any_failure (l : list Action) : bool := existsb failed l.

Definition generation_failed (l : list Action) : bool :=
  existsb (fun a => match a with
                    | Generation _ (inl _) => true
                    | _ => false
                    end) l.

(** The four stages of the pipeline of one event.  A message write is the
    user's when it is made with sender kind [user], the assistant's
    otherwise. *)
Inductive Stage := UserWrite | GenerationCall | AssistantWrite | ReplyEmission.

Definition stage_rank (g : Stage) : nat :=
  match g with
  | UserWrite => 0
  | GenerationCall => 1
  | AssistantWrite => 2
  | ReplyEmission => 3
  end.

Definition stage_of (a : Action) : option Stage :=
  match a with
  | MessageWrite f _ =>
      if js_String (Message.f_senderType f) =? "user" then Some UserWrite
      else Some AssistantWrite
  | Generation _ _ => Some GenerationCall
  | Emission _ _ _ => Some ReplyEmission
  | _ => None
  end.

Definition stages (l : list Action) : list nat :=
  flat_map (fun a => match stage_of a with
                     | Some g => [stage_rank g]
                     | None => []
                     end) l.

(** The stage was reached and its call came back without an error. *)
Definition completes (g : Stage) (a : Action) : bool :=
  match stage_of a with
  | Some g' => Nat.eqb (stage_rank g) (stage_rank g') && negb (failed a)
  | None => false
  end.

(** The call of the stage was made. *)
Definition begins (g : Stage) (a : Action) : bool :=
  match stage_of a with
  | Some g' => Nat.eqb (stage_rank g) (stage_rank g')
  | None => false
  end.

(** ** Shapes of replies and of stores *)

(** The shape of a [receive_message] payload: every string field is there
    and the sender kind is one the Message schema knows. *)
Definition well_formed (p : Reply.t) : bool :=
  negb (Reply.id p =? "")
  && negb (Reply.content p =? "")
  && existsb (String.eqb (Reply.senderType p)) Message.senderType_enum
  && negb (Reply.senderName p =? "").

(** The literal of the catch block of the first version. *)
Definition fallback_reply (id_now stamp : Z) : Reply.t :=
  {| Reply.id := "temp_error_" ++ number_toString id_now;
     Reply.content := apology;
     Reply.senderType := "ai";
     Reply.senderName := "System Error";
     Reply.timestamp := stamp |}.

(** [unique: true] on [userId]. *)
Definition unique_threads (st : Store) : Prop :=
  NoDup (map Chat.userId (chats st)).

Definition threads_of (u : string) (st : Store) : list Chat.t :=
  filter (has_userId u) (chats st).

(** What [save] never changes of a thread. *)
Definition frozen (c : Chat.t) : ObjectId * string * string * string * Z :=
  (Chat._id c, Chat.userId c, Chat.userEmail c, Chat.status c,
   Chat.createdAt c).

Definition carries_uid (u : string) (c : Call) : Prop :=
  exists d, data c = Some d /\ Payload.uid d = Some u.

Definition no_faults (s : Script) : Prop :=
  Forall (fun c => fault c = false) s.

Definition by_createdAt (a b : Message.t) : Prop :=
  (Message.createdAt a <= Message.createdAt b)%Z.

Definition is_hex (c : ascii) : bool :=
  existsb (Ascii.eqb c)
    ["0"; "1"; "2"; "3"; "4"; "5"; "6"; "7";
     "8"; "9"; "a"; "b"; "c"; "d"; "e"; "f"]%char.

Fixpoint all_hex (s : string) : bool :=
  match s with
  | EmptyString => true
  | String c s' => is_hex c && all_hex s'
  end.

(** ** Checking the order of a log *)

(** Every entry of [l] that satisfies [Q] has an earlier one that
    satisfies [P]. *)
Definition preceded_by (P Q : Action -> bool) (l : list Action) : Prop :=
  forall l1 a l2,
    l = l1 ++ a :: l2 -> Q a = true -> existsb P l1 = true.

Fixpoint check_preceded (P Q : Action -> bool) (seen : bool)
  (l : list Action) : bool :=
  match l with
  | [] => true
  | a :: l' =>
      (if Q a then seen else true)
      && check_preceded P Q (seen || P a) l'
  end.

Fixpoint increasing (l : list nat) : bool :=
  match l with
  | [] => true
  | x :: l' => forallb (Nat.ltb x) l' && increasing l'
  end.

(** ** Sample events *)

Definition hello : Payload.t :=
  {| Payload.uid := Some "u1"; Payload.email := Some "a@b.com";
     Payload.content := Some "Hello"; Payload.senderName := None |}.

Definition help : Payload.t :=
  {| Payload.uid := Some "u2"; Payload.email := Some "c@d.com";
     Payload.content := Some "Help"; Payload.senderName := Some "Ann" |}.

Definition empty_content : Payload.t :=
  {| Payload.uid := Some "u1"; Payload.email := Some "a@b.com";
     Payload.content := Some ""; Payload.senderName := None |}.

Definition at_time (now : Z) : Choice :=
  {| fault := false; answer := ""; built := now; clock := now |}.

Definition answers (text : string) (now : Z) : Choice :=
  {| fault := false; answer := text; built := now; clock := now |}.

Definition fails (now : Z) : Choice :=
  {| fault := true; answer := ""; built := now; clock := now |}.

(** The generator answers "Hi there". *)
Definition generator_answers : Script :=
  [at_time 1000; at_time 1001; at_time 1002; answers "Hi there" 1003;
   at_time 1004].

(** The generator fails at its call. *)
Definition generator_fails : Script :=
  [at_time 2000; at_time 2001; at_time 2002; fails 2003;
   at_time 2004; at_time 2005].

(** The same on a thread that exists ([Date.now] and [save] come before). *)
Definition second_round : Script :=
  [at_time 5000; at_time 5001; at_time 5002; at_time 5003;
   answers "Gladly" 5004; at_time 5005].

(** The store fails at the thread lookup. *)
Definition lookup_fails : Script :=
  [fails 3000; at_time 3001; at_time 3002].

Definition system_prompt : string := "You are the assistant of a sign shop.".

(** A store with one thread and two messages, the later one stored
    first. *)
Definition sample_thread : Chat.t :=
  {| Chat._id := 0%N; Chat.userId := "u1"; Chat.userEmail := "a@b.com";
     Chat.status := "ai_active"; Chat.lastMessageAt := 50%Z;
     Chat.createdAt := 10%Z; Chat.updatedAt := 50%Z |}.

Definition sample_store : Store :=
  {| chats := [sample_thread];
     messages :=
       [ {| Message._id := 2%N; Message.chatId := 0%N;
            Message.content := "Hi there"; Message.senderType := "ai";
            Message.senderName := "K'artz Assistant";
            Message.senderUid := None;
            Message.createdAt := 50%Z; Message.updatedAt := 50%Z |};
         {| Message._id := 1%N; Message.chatId := 0%N;
            Message.content := "Hello"; Message.senderType := "user";
            Message.senderName := "Client";
            Message.senderUid := Some "u1";
            Message.createdAt := 40%Z; Message.updatedAt := 40%Z |} ];
     next_id := 3%N |}.

(** Scenario B: the identity of [sample_store] writes again, first to
    the first version and then to the second. *)
Definition more_info : Payload.t :=
  {| Payload.uid := Some "u1"; Payload.email := Some "a@b.com";
     Payload.content := Some "More info"; Payload.senderName := Some "Ann" |}.

Definition two_more_calls : list Call :=
  [ {| version := V1; socket := "s1"; data := Some more_info;
       script := second_round |};
    {| version := V2; socket := "s2"; data := Some more_info;
       script := generator_fails |} ].

(** The payload with the display name [name] supplied. *)
Definition with_senderName (name : string) (d : Payload.t) : Payload.t :=
  {| Payload.uid := Payload.uid d;
     Payload.email := Payload.email d;
     Payload.content := Payload.content d;
     Payload.senderName := Some name |}.

(** ** Documents the schemas accept *)

(** A stored message as [MessageSchema] wants it: content and sender name
    present and not empty, the sender kind one of the enum. *)
Definition valid_message (m : Message.t) : bool :=
  negb (Message.content m =? "")
  && existsb (String.eqb (Message.senderType m)) Message.senderType_enum
  && negb (Message.senderName m =? "").

(** A stored thread as [ChatSchema] wants it. *)
Definition valid_chat (c : Chat.t) : bool :=
  negb (Chat.userId c =? "")
  && negb (Chat.userEmail c =? "")
  && existsb (String.eqb (Chat.status c)) Chat.status_enum.

Definition store_valid (st : Store) : Prop :=
  Forall (fun m => valid_message m = true) (messages st)
  /\ Forall (fun c => valid_chat c = true) (chats st).

(** ** More readings of a log *)

(** Step 1 of the handler (find, create or save the thread) failed. *)
Definition thread_failed (l : list Action) : bool :=
  existsb (fun a => match a with
                    | ThreadLookup _ (inl _) => true
                    | ThreadCreate _ (inl _) => true
                    | ThreadSave _ (inl _) => true
                    | _ => false
                    end) l.

(** The store turned the user message of the event down. *)
Definition user_write_failed (l : list Action) : bool :=
  existsb (fun a => match a with
                    | MessageWrite f (inl _) =>
                        js_String (Message.f_senderType f) =? "user"
                    | _ => false
                    end) l.

(** The prompts sent to the generator. *)
Definition prompts (l : list Action) : list string :=
  flat_map (fun a => match a with
                     | Generation p _ => [p]
                     | _ => []
                     end) l.

(** The generator came back with the empty text. *)
Definition empty_answer (l : list Action) : bool :=
  existsb (fun a => match a with
                    | Generation _ (inr t) => t =? ""
                    | _ => false
                    end) l.

(** The entries of a log that are reads of the store. *)
Definition is_read (a : Action) : bool :=
  match a with
  | ThreadLookup _ _ => true
  | MessageRead _ _ => true
  | _ => false
  end.

(** The body of a 200 response, if the response is one. *)
Definition body_of (r : Result Response) : option (list Reply.t) :=
  match r with
  | inr (json 200 body) => Some body
  | _ => None
  end.

(** ** More sample data *)

(** The generator answers with the empty text. *)
Definition generator_mute : Script :=
  [at_time 4000; at_time 4001; at_time 4002; answers "" 4003;
   at_time 4004; at_time 4005; at_time 4006].

(** The store refuses to create the thread. *)
Definition create_fails : Script :=
  [at_time 6000; fails 6001; at_time 6002; at_time 6003].

Definition idle_node : Node :=
  {| node_store := empty_store; in_flight := []; journal := [] |}.

(** Two events of the same new identity arrive before either handler
    has made a call. *)
Definition two_arrivals : Node :=
  {| node_store := empty_store;
     in_flight := [send_message system_prompt V1 "s1" (Some hello);
                   send_message system_prompt V1 "s2" (Some hello)];
     journal := [] |}.

(** ** Running a node by a schedule *)

(** Let the handler at position [i] make its next call, with the decision
    [c] of the world; a handler that has finished leaves the node. *)
Definition advance (i : nat) (c : Choice) (n : Node) : Node :=
  match nth_error (in_flight n) i with
  | Some (Do op k) =>
      {| node_store := snd (exec op c (node_store n));
         in_flight :=
           firstn i (in_flight n)
           ++ k (fst (exec op c (node_store n))) :: skipn (S i) (in_flight n);
         journal :=
           journal n ++ [record_call op (fst (exec op c (node_store n)))] |}
  | Some _ =>
      {| node_store := node_store n;
         in_flight := firstn i (in_flight n) ++ skipn (S i) (in_flight n);
         journal := journal n |}
  | None => n
  end.

Definition schedule (turns : list (nat * Choice)) (n : Node) : Node :=
  fold_left (fun n t => advance (fst t) (snd t) n) turns n.

(** Both handlers of [two_arrivals] look the thread up before either
    creates it; then each runs on to its end, the first one first. *)
Definition race : list (nat * Choice) :=
  [ (0, at_time 10); (1, at_time 11);
    (0, at_time 12); (1, at_time 13);
    (0, at_time 14); (0, answers "Hi there" 15); (0, at_time 16);
    (0, at_time 17); (0, at_time 18);
    (0, at_time 19); (0, at_time 20); (0, at_time 21); (0, at_time 22) ].

(** ** Object ids of the threads *)

(** The store hands out fresh ids: the threads have distinct ids, all of
    them handed out before. *)
Definition ids_sound (st : Store) : Prop :=
  NoDup (map Chat._id (chats st))
  /\ Forall (fun c => (Chat._id c < next_id st)%N) (chats st).

(** * Properties *)

(** ** The scenarios of the specification, run *)

(** Scenario A: a fresh identity says "Hello", the generator answers
    "Hi there". *)
Example scenario_A :
  let r := run (send_message_v1 system_prompt "s1" (Some hello))
               generator_answers empty_store in
  map Chat.userId (chats (store r)) = ["u1"]
  /\ map (fun m => (Message.senderType m, Message.content m))
         (messages (store r))
     = [("user", "Hello"); ("ai", "Hi there")]
  /\ map (fun e => Reply.content (snd e)) (emitted (log r)) = ["Hi there"].
Proof. repeat split. Qed.

(** Scenario B: the same identity writes again. *)
Example scenario_B :
  let a := run (send_message_v1 system_prompt "s1" (Some hello))
               generator_answers empty_store in
  let b := run (send_message_v1 system_prompt "s1" (Some more_info))
               second_round (store a) in
  length (chats (store b)) = 1
  /\ length (messages (store b)) = 4
  /\ map Chat.lastMessageAt (chats (store a)) = [1001%Z]
  /\ map Chat.lastMessageAt (chats (store b)) = [5001%Z].
Proof. repeat split. Qed.

(** Scenario C: the generator fails. *)
Example scenario_C :
  let r := run (send_message_v1 system_prompt "s1" (Some help))
               generator_fails empty_store in
  map Chat.userId (chats (store r)) = ["u2"]
  /\ map (fun m => (Message.senderType m, Message.content m))
         (messages (store r))
     = [("user", "Help")]
  /\ emitted (log r)
     = [("s1", "receive_message", fallback_reply 2004 2005)]
  /\ Reply.id (fallback_reply 2004 2005) = "temp_error_2004".
Proof. repeat split. Qed.

(** Scenario D and the history of a stored thread, oldest first. *)
Example scenario_D :
  result (run (chat_history "nobody") [] sample_store) = inr (json 200 [])
  /\ result (run (chat_history "u1") [] sample_store)
     = inr (json 200
              [ {| Reply.id := "000000000000000000000001";
                   Reply.content := "Hello";
                   Reply.senderType := "user";
                   Reply.senderName := "Client";
                   Reply.timestamp := 40%Z |};
                {| Reply.id := "000000000000000000000002";
                   Reply.content := "Hi there";
                   Reply.senderType := "ai";
                   Reply.senderName := "K'artz Assistant";
                   Reply.timestamp := 50%Z |} ])
  /\ result (run (chat_history "") [] sample_store)
     = inr (json_error 400 "Missing user UID")
  /\ result (run (chat_history "u1") [fails 0] sample_store)
     = inr (json_error 500 "Internal Server Error fetching history").
Proof. repeat split. Qed.

(** Scenario E: empty content. *)
Example scenario_E :
  run (send_message_v1 system_prompt "s1" (Some empty_content))
      generator_answers empty_store
  = {| result := inr tt; store := empty_store; log := [];
       rest := generator_answers |}.
Proof. reflexivity. Qed.

(** An event without a payload object: reading [data.uid] throws before
    the handler calls anything. *)
Lemma absent_payload_throws (P : string) (v : Version) (sock : SocketId)
  (s : Script) (st : Store) :
  run (send_message P v sock None) s st
  = {| result := inl TypeError; store := st; log := []; rest := s |}.
Proof. now destruct v. Qed.

(** ** Runs *)

Lemma run_then_logged {A B} (a : Action) (r : Run A)
  (f : A -> Script -> Store -> Run B) :
  run_then (logged a r) f = logged a (run_then r f).
Proof.
  unfold run_then, logged. simpl. now destruct (result r).
Qed.

Lemma run_else_logged {A} (a : Action) (r : Run A)
  (h : Error -> Script -> Store -> Run A) :
  run_else (logged a r) h = logged a (run_else r h).
Proof.
  unfold run_else, logged. simpl. now destruct (result r).
Qed.

(** [bind] runs its first program and then, on a value, the second. *)
Lemma run_bind {A B} (p : Prog A) (k : A -> Prog B) :
  forall s st,
    run (bind p k) s st = run_then (run p s st) (fun a => run (k a)).
Proof.
  induction p as [a|e|X op h IH]; intros s st; simpl.
  - unfold run_then. simpl. now destruct (run (k a) s st).
  - reflexivity.
  - now rewrite IH, run_then_logged.
Qed.

(** [try_catch] runs its body and then, on an error, the handler, also
    when the error is the failure of a call of the body. *)
Lemma run_try_catch {A} (p : Prog A) (h : Error -> Prog A) :
  forall s st,
    run (try_catch p h) s st = run_else (run p s st) (fun e => run (h e)).
Proof.
  induction p as [a|e|X op k IH]; intros s st; simpl.
  - reflexivity.
  - unfold run_else. simpl. now destruct (run (h e) s st).
  - now rewrite IH, run_else_logged.
Qed.

(** A [try ... catch] whose handler cannot throw lets no error through. *)
Lemma try_catch_is_a_boundary {A} (p : Prog A) (h : Error -> Prog A) :
  (forall e s st, returns (run (h e) s st)) ->
  forall s st, returns (run (try_catch p h) s st).
Proof.
  intros H s st. rewrite run_try_catch. unfold run_else, returns.
  destruct (result (run p s st)) as [e|a] eqn:E; simpl.
  - apply H.
  - now exists a.
Qed.

(** Every call of a run takes exactly one decision of the script. *)
Lemma run_rest {A} (p : Prog A) :
  forall s st, rest (run p s st) = skipn (length (log (run p s st))) s.
Proof.
  induction p as [a|e|X op k IH]; intros s st; simpl; try reflexivity.
  rewrite IH. destruct s as [|c s]; simpl; [|reflexivity].
  now rewrite skipn_nil.
Qed.

(** The store changes at calls only, so an invariant of the calls is an
    invariant of every run. *)
Lemma run_invariant (I : Store -> Prop) :
  (forall X (op : Op X) c st, I st -> I (snd (exec op c st))) ->
  forall A (p : Prog A) s st, I st -> I (store (run p s st)).
Proof.
  intros Hexec A p.
  induction p as [a|e|X op k IH]; intros s st H; simpl; auto.
Qed.

(** ** Object ids and transient ids *)

Lemma hex_digit_is_hex (d : N) : is_hex (hex_digit d) = true.
Proof.
  destruct d as [|p]; [reflexivity|].
  do 4 (destruct p as [p|p|]; try reflexivity).
Qed.

Lemma all_hex_app (s1 s2 : string) :
  all_hex (s1 ++ s2)%string = all_hex s1 && all_hex s2.
Proof.
  induction s1 as [|c s1 IH]; simpl.
  - reflexivity.
  - rewrite IH. apply andb_assoc.
Qed.

Lemma hex_fixed_all_hex (w : nat) : forall n, all_hex (hex_fixed w n) = true.
Proof.
  induction w as [|w IH]; intros n; simpl.
  - reflexivity.
  - rewrite all_hex_app, IH. simpl.
    rewrite hex_digit_is_hex. reflexivity.
Qed.

Lemma length_append (s1 s2 : string) :
  String.length (s1 ++ s2)%string = String.length s1 + String.length s2.
Proof.
  induction s1 as [|c s1 IH]; simpl; [reflexivity | now rewrite IH].
Qed.

(** [toString()] of an object id always has 24 characters. *)
Lemma hex_fixed_length (w : nat) : forall n, String.length (hex_fixed w n) = w.
Proof.
  induction w as [|w IH]; intros n; simpl.
  - reflexivity.
  - rewrite length_append, IH. simpl. lia.
Qed.

(** No object id renders as a string that starts with [temp_error_]. *)
Lemma transient_id_is_no_ObjectId (now : Z) (i : ObjectId) :
  ("temp_error_" ++ number_toString now)%string <> ObjectId_toString i.
Proof.
  intros H.
  pose proof (hex_fixed_all_hex 24 i) as Hhex.
  unfold ObjectId_toString in H. rewrite <- H in Hhex.
  simpl in Hhex. discriminate.
Qed.

(** ** The store *)

Lemma validated_fields (d : Payload.t) :
  missing_data d = false ->
  truthy (Payload.uid d) = true
  /\ truthy (Payload.email d) = true
  /\ truthy (Payload.content d) = true.
Proof.
  unfold missing_data. intros H.
  apply orb_false_iff in H. destruct H as [H Hc].
  apply orb_false_iff in H. destruct H as [Hu He].
  apply negb_false_iff in Hu, He, Hc. auto.
Qed.

Lemma truthy_spec (v : JsString) :
  truthy v = false <-> v = None \/ v = Some "".
Proof.
  destruct v as [s|]; simpl.
  - rewrite negb_false_iff, String.eqb_eq. split.
    + intros ->. now right.
    + intros [H|H]; [discriminate | now inversion H].
  - split; auto.
Qed.

Lemma existsb_has_userId (u : string) (l : list Chat.t) :
  existsb (has_userId u) l = false -> ~ In u (map Chat.userId l).
Proof.
  induction l as [|c l IH]; simpl; intros H.
  - tauto.
  - apply orb_false_iff in H. destruct H as [Hc Hl].
    intros [E|E].
    + unfold has_userId in Hc. rewrite E, String.eqb_refl in Hc. discriminate.
    + now apply IH.
Qed.

Lemma update_chat_userId (now : Z) (doc : Chat.t) (l : list Chat.t) :
  map Chat.userId (update_chat now doc l) = map Chat.userId l.
Proof.
  unfold update_chat. rewrite map_map. apply map_ext.
  intros c. now destruct (same_id doc c).
Qed.

Lemma update_chat_frozen (now : Z) (doc : Chat.t) (l : list Chat.t) :
  map frozen (update_chat now doc l) = map frozen l.
Proof.
  unfold update_chat. rewrite map_map. apply map_ext.
  intros c. now destruct (same_id doc c).
Qed.

(** Every call keeps the user ids of the stored threads distinct:
    [Chat.create] is the only call that adds one, and the unique index
    turns a duplicate down. *)
Lemma exec_unique_threads {X} (op : Op X) (c : Choice) (st : Store) :
  unique_threads st -> unique_threads (snd (exec op c st)).
Proof.
  unfold unique_threads. intros U.
  destruct op; simpl;
    repeat match goal with
           | |- context [if ?b then _ else _] => destruct b eqn:?
           end; simpl; auto.
  - rewrite map_app. simpl.
    apply NoDup_app; auto.
    + constructor; [tauto | constructor].
    + intros u Hu [E|[]]. subst u.
      now apply (existsb_has_userId _ _ Heqb1).
  - now rewrite update_chat_userId.
Qed.

(** Hence so does every program, whatever it is and whatever the world
    decides while it runs. *)
Lemma run_unique_threads {A} (p : Prog A) :
  forall s st, unique_threads st -> unique_threads (store (run p s st)).
Proof.
  intros s st. apply run_invariant.
  intros X op c st'. apply exec_unique_threads.
Qed.

Lemma handle_all_unique_threads (P : string) (calls : list Call) :
  forall st, unique_threads st -> unique_threads (handle_all P calls st).
Proof.
  induction calls as [|c calls IH]; intros st U; simpl; auto.
  apply IH. unfold handle. now apply run_unique_threads.
Qed.

Lemma threads_of_In (u : string) (st : Store) :
  threads_of u st <> [] <-> In u (map Chat.userId (chats st)).
Proof.
  unfold threads_of. induction (chats st) as [|c l IH]; simpl.
  - tauto.
  - unfold has_userId at 1. destruct (Chat.userId c =? u) eqn:E.
    + apply String.eqb_eq in E. split; [auto | discriminate].
    + apply String.eqb_neq in E. rewrite IH. tauto.
Qed.

Lemma unique_threads_at_most_one (u : string) (st : Store) :
  unique_threads st -> length (threads_of u st) <= 1.
Proof.
  unfold unique_threads, threads_of.
  induction (chats st) as [|c l IH]; simpl; intros U.
  - lia.
  - inversion U as [|x xs Hnotin Hrest]; subst.
    unfold has_userId at 1. destruct (Chat.userId c =? u) eqn:E.
    + apply String.eqb_eq in E. subst u.
      assert (F : filter (has_userId (Chat.userId c)) l = []).
      { destruct (filter (has_userId (Chat.userId c)) l) as [|y ys] eqn:G;
          [reflexivity|].
        exfalso. apply Hnotin.
        assert (Hy : In y (filter (has_userId (Chat.userId c)) l))
          by (rewrite G; now left).
        apply filter_In in Hy. destruct Hy as [Hy1 Hy2].
        apply String.eqb_eq in Hy2. rewrite <- Hy2. now apply in_map. }
      rewrite F. simpl. lia.
    + auto.
Qed.

Lemma findOne_none (u : string) (st : Store) :
  findOne_by_userId u st = None -> threads_of u st = [].
Proof.
  unfold findOne_by_userId, threads_of.
  induction (chats st) as [|c l IH]; simpl; intros H.
  - reflexivity.
  - destruct (has_userId u c); [discriminate | auto].
Qed.

Lemma findOne_some (u : string) (st : Store) (chat : Chat.t) :
  findOne_by_userId u st = Some chat ->
  In chat (chats st) /\ Chat.userId chat = u.
Proof.
  unfold findOne_by_userId. intros H.
  apply find_some in H. destruct H as [H1 H2].
  split; [assumption | now apply String.eqb_eq].
Qed.

(** Under the unique index, [findOne] returns the thread of the identity. *)
Lemma findOne_the_thread (u : string) (st : Store) (chat : Chat.t) :
  unique_threads st ->
  In chat (chats st) -> Chat.userId chat = u ->
  findOne_by_userId u st = Some chat.
Proof.
  unfold unique_threads, findOne_by_userId.
  induction (chats st) as [|c l IH]; simpl; intros U Hin Hu.
  - contradiction.
  - inversion U as [|x xs Hnotin Hrest]; subst.
    unfold has_userId at 1. destruct (Chat.userId c =? Chat.userId chat) eqn:E.
    + destruct Hin as [->|Hin]; [reflexivity|].
      exfalso. apply Hnotin. apply String.eqb_eq in E. rewrite E.
      now apply in_map.
    + destruct Hin as [->|Hin].
      * now rewrite String.eqb_refl in E.
      * now apply IH.
Qed.

Lemma frozen_userId (l1 l2 : list Chat.t) :
  map frozen l1 = map frozen l2 -> map Chat.userId l1 = map Chat.userId l2.
Proof.
  intros H.
  assert (E : forall l, map Chat.userId l
                        = map (fun x => snd (fst (fst (fst x)))) (map frozen l)).
  { intros l. rewrite map_map. now apply map_ext. }
  now rewrite !E, H.
Qed.

(** ** Replies *)

Lemma fallback_reply_well_formed (id_now stamp : Z) :
  well_formed (fallback_reply id_now stamp) = true.
Proof. reflexivity. Qed.

Lemma apology_not_empty : apology <> "".
Proof. discriminate. Qed.

(** ** Sorting by creation date *)

Lemma insert_by_createdAt_perm (m : Message.t) (l : list Message.t) :
  Permutation (insert_by_createdAt m l) (m :: l).
Proof.
  induction l as [|x l IH]; simpl.
  - apply Permutation_refl.
  - destruct (Z.leb (Message.createdAt m) (Message.createdAt x)).
    + apply Permutation_refl.
    + apply perm_trans with (x :: m :: l).
      * now apply perm_skip.
      * apply perm_swap.
Qed.

Lemma sort_by_createdAt_perm (l : list Message.t) :
  Permutation (sort_by_createdAt l) l.
Proof.
  unfold sort_by_createdAt. induction l as [|m l IH]; simpl.
  - apply perm_nil.
  - apply perm_trans with (m :: fold_right insert_by_createdAt [] l).
    + apply insert_by_createdAt_perm.
    + now apply perm_skip.
Qed.

Lemma insert_by_createdAt_sorted (m : Message.t) (l : list Message.t) :
  StronglySorted by_createdAt l ->
  StronglySorted by_createdAt (insert_by_createdAt m l).
Proof.
  induction l as [|x l IH]; simpl; intros S.
  - repeat constructor.
  - inversion S as [|y ys Sl Fx]; subst.
    destruct (Z.leb (Message.createdAt m) (Message.createdAt x)) eqn:E.
    + apply Z.leb_le in E. constructor; [assumption|].
      constructor; [exact E|].
      eapply Forall_impl; [|exact Fx].
      unfold by_createdAt. intros a Ha. lia.
    + apply Z.leb_gt in E. constructor; [now apply IH|].
      apply Forall_forall. intros a Ha.
      apply (Permutation_in _ (insert_by_createdAt_perm m l)) in Ha.
      destruct Ha as [<-|Ha].
      * unfold by_createdAt. lia.
      * rewrite Forall_forall in Fx. now apply Fx.
Qed.

Lemma sort_by_createdAt_sorted (l : list Message.t) :
  StronglySorted by_createdAt (sort_by_createdAt l).
Proof.
  unfold sort_by_createdAt. induction l as [|m l IH]; simpl.
  - constructor.
  - now apply insert_by_createdAt_sorted.
Qed.

(** ** Order checks *)

Lemma check_preceded_sound (P Q : Action -> bool) (l : list Action) :
  forall seen,
    check_preceded P Q seen l = true ->
    forall l1 a l2,
      l = l1 ++ a :: l2 -> Q a = true -> seen || existsb P l1 = true.
Proof.
  induction l as [|x l IH]; intros seen C l1 a l2 E Qa.
  - now destruct l1.
  - simpl in C. apply andb_true_iff in C. destruct C as [C1 C2].
    destruct l1 as [|y l1]; simpl in E; inversion E; subst.
    + rewrite Qa in C1. now rewrite C1.
    + specialize (IH _ C2 _ _ _ eq_refl Qa). simpl.
      now rewrite orb_assoc.
Qed.

Lemma preceded_by_checked (P Q : Action -> bool) (l : list Action) :
  check_preceded P Q false l = true -> preceded_by P Q l.
Proof.
  intros C l1 a l2 E Qa.
  exact (check_preceded_sound P Q l false C l1 a l2 E Qa).
Qed.

Lemma increasing_sorted (l : list nat) :
  increasing l = true -> StronglySorted lt l.
Proof.
  induction l as [|x l IH]; simpl; intros H.
  - constructor.
  - apply andb_true_iff in H. destruct H as [H1 H2].
    constructor; [now apply IH|].
    apply Forall_forall. intros y Hy.
    rewrite forallb_forall in H1. now apply Nat.ltb_lt, H1.
Qed.

Lemma no_faults_next (s : Script) :
  no_faults s -> fault (next_choice s) = false /\ no_faults (tl s).
Proof.
  unfold no_faults. intros H. destruct s as [|c s]; simpl.
  - split; [reflexivity | constructor].
  - inversion H; subst. now split.
Qed.

Lemma no_thread_findOne (u : string) (st : Store) :
  (forall chat, In chat (chats st) -> Chat.userId chat <> u) ->
  findOne_by_userId u st = None.
Proof.
  intros H. destruct (findOne_by_userId u st) as [chat|] eqn:F;
    [|reflexivity].
  apply findOne_some in F. destruct F as [F1 F2].
  now apply H in F1.
Qed.

Lemma js_or_Client (v : JsString) : (js_or v "Client" =? "") = false.
Proof.
  destruct v as [s|]; simpl; [|reflexivity].
  destruct (s =? "") eqn:E; [reflexivity | assumption].
Qed.

(** ** Symbolic runs of the handlers *)

#[local] Arguments ObjectId_toString : simpl never.
#[local] Arguments number_toString : simpl never.
#[local] Arguments fullPrompt : simpl never.
#[local] Arguments String.append : simpl never.
#[local] Arguments findOne_by_userId : simpl never.
#[local] Arguments sort_by_createdAt : simpl never.
#[local] Arguments update_chat : simpl never.
#[local] Arguments apology : simpl never.

(** Follow a run through every decision the world can take. *)
Ltac crunch :=
  repeat (cbn in *;
          unfold Chat_validate, Message_validate, check_required, check_enum
            in *;
          cbn in *;
          rewrite ?js_or_Client in *;
          match goal with
          | H : ?b = _ |- context [if ?b then _ else _] => rewrite H
          | H : ?x = _ |- context [match ?x with _ => _ end] => rewrite H
          | |- context [truthy ?v] => destruct (truthy v) eqn:?
          | |- context [String.eqb ?a ?b] => destruct (String.eqb a b) eqn:?
          | |- context [if ?b then _ else _] => destruct b eqn:?
          | |- context [match ?x with _ => _ end] => destruct x eqn:?
          end);
  cbn in *.

(** Enter the handler with a payload that passed the guard. *)
Ltac enter M :=
  let Hu := fresh "Hu" in
  let He := fresh "He" in
  let Hc := fresh "Hc" in
  destruct (validated_fields _ M) as (Hu & He & Hc);
  unfold send_message; cbv beta iota;
  unfold send_message_v1, send_message_v2;
  cbv beta iota zeta; rewrite ?M.

(** A handler that finds the thread of the identity creates none: the
    threads keep their ids, identities, addresses, status and creation
    dates. *)
Lemma send_message_reuses_thread (P : string) (v : Version) (sock : SocketId)
  (d : Payload.t) (s : Script) (st : Store) (u : string) :
  Payload.uid d = Some u ->
  threads_of u st <> [] ->
  map frozen (chats (store (run (send_message P v sock (Some d)) s st)))
  = map frozen (chats st).
Proof.
  intros Hu Hex.
  destruct (findOne_by_userId u st) as [chat|] eqn:F;
    [|now apply findOne_none in F].
  destruct (missing_data d) eqn:M.
  - destruct v; cbn; now rewrite M.
  - destruct v; enter M; rewrite Hu in *; crunch;
      try reflexivity; apply update_chat_frozen.
Qed.

Lemma handle_all_reuses_thread (P : string) (u : string) (calls : list Call) :
  forall st,
    Forall (carries_uid u) calls ->
    threads_of u st <> [] ->
    map frozen (chats (handle_all P calls st)) = map frozen (chats st).
Proof.
  induction calls as [|c calls IH]; intros st Hall Hex; simpl.
  - reflexivity.
  - inversion Hall as [|c' calls' Hc Hrest]; subst.
    destruct Hc as (d & Hd & Hu).
    assert (E : map frozen (chats (handle P st c)) = map frozen (chats st)).
    { unfold handle. rewrite Hd. now apply send_message_reuses_thread with u. }
    rewrite IH; auto.
    apply threads_of_In. rewrite (frozen_userId _ _ E).
    now apply threads_of_In.
Qed.

(** ** Specified properties: validation and threads *)

(** C3. An inbound [send_message] event whose payload lacks [uid], [email]
    or [content], or carries one of them empty, is dropped by either
    version of the handler: the handler returns without an error and
    without a single external call, so the store is the one it found, no
    store write is made and nothing is emitted. *)
Theorem drop_on_invalid (P : string) (v : Version) (sock : SocketId)
  (d : Payload.t) (s : Script) (st : Store) :
  Payload.uid d = None \/ Payload.uid d = Some ""
  \/ Payload.email d = None \/ Payload.email d = Some ""
  \/ Payload.content d = None \/ Payload.content d = Some "" ->
  let r := run (send_message P v sock (Some d)) s st in
  r = {| result := inr tt; store := st; log := []; rest := s |}
  /\ store_writes (log r) = 0
  /\ emitted (log r) = [].
Proof.
  intros H.
  assert (M : missing_data d = true).
  { unfold missing_data.
    destruct H as [H|[H|[H|[H|[H|H]]]]]; rewrite H; simpl;
      rewrite ?orb_true_r; reflexivity. }
  assert (E : run (send_message P v sock (Some d)) s st
              = {| result := inr tt; store := st; log := []; rest := s |}).
  { destruct v; simpl; now rewrite M. }
  cbv zeta. rewrite E. repeat split.
Qed.

Lemma drop_on_invalid_witness :
  Payload.content empty_content = Some ""
  /\ emitted (log (run (send_message system_prompt V2 "s1"
                          (Some empty_content))
                       generator_answers empty_store)) = [].
Proof.
  split; [reflexivity|].
  exact (proj2 (proj2
    (drop_on_invalid system_prompt V2 "s1" empty_content generator_answers
       empty_store
       (or_intror (or_intror (or_intror (or_intror (or_intror eq_refl)))))))).
Defined.

(** C5. Start from a store in which user ids are distinct (the unique
    index on [userId]) and handle any sequence of [send_message] events,
    by either version, whatever the world decides: afterwards at most one
    thread exists for every identity [u].  When a thread of [u] exists
    beforehand and all the events carry uid [u], no thread is created:
    the threads afterwards are the threads before, up to the dates
    [lastMessageAt] and [updatedAt] that [save] writes. *)
Theorem single_thread_per_identity (P : string) (calls : list Call)
  (st : Store) (u : string) :
  unique_threads st ->
  length (threads_of u (handle_all P calls st)) <= 1
  /\ (Forall (carries_uid u) calls ->
      threads_of u st <> [] ->
      map frozen (chats (handle_all P calls st)) = map frozen (chats st)).
Proof.
  intros U. split.
  - apply unique_threads_at_most_one.
    now apply handle_all_unique_threads.
  - now apply handle_all_reuses_thread.
Qed.

(** C4. For a non-empty identity and store reads that succeed, the history
    endpoint answers 200 and leaves the store as it is.  When no thread
    has the identity the body is the empty sequence.  When a thread has
    it, the body lists all the messages of that thread and no other,
    ascending by [createdAt], each projected to [id], [content],
    [senderType], [senderName] and [timestamp]. *)
Theorem chat_history_ordered_projection (uid : string) (s : Script)
  (st : Store) :
  uid <> "" ->
  no_faults s ->
  let r := run (chat_history uid) s st in
  store r = st
  /\ ((forall chat, In chat (chats st) -> Chat.userId chat <> uid) ->
      result r = inr (json 200 []))
  /\ (forall chat,
        unique_threads st ->
        In chat (chats st) -> Chat.userId chat = uid ->
        exists rawMessages,
          result r
          = inr (json 200
                   (map (fun msg =>
                           {| Reply.id := ObjectId_toString (Message._id msg);
                              Reply.content := Message.content msg;
                              Reply.senderType := Message.senderType msg;
                              Reply.senderName := Message.senderName msg;
                              Reply.timestamp := Message.createdAt msg |})
                        rawMessages))
          /\ Permutation rawMessages
               (filter (in_chat (Chat._id chat)) (messages st))
          /\ StronglySorted by_createdAt rawMessages).
Proof.
  intros Huid Hs.
  destruct (no_faults_next s Hs) as [F1 Hs'].
  destruct (no_faults_next (tl s) Hs') as [F2 _].
  unfold chat_history.
  apply String.eqb_neq in Huid. rewrite Huid.
  cbn. rewrite F1. cbn.
  split; [|split].
  - destruct (findOne_by_userId uid st); cbn; [now rewrite F2 | reflexivity].
  - intros Hnone. rewrite no_thread_findOne; [reflexivity | assumption].
  - intros chat U Hin Hu.
    rewrite (findOne_the_thread uid st chat U Hin Hu). cbn. rewrite F2. cbn.
    exists (sort_by_createdAt (filter (in_chat (Chat._id chat)) (messages st))).
    split; [reflexivity|]. split.
    + apply sort_by_createdAt_perm.
    + apply sort_by_createdAt_sorted.
Qed.

(** Both versions wrap all they await in one [try ... catch] whose
    handler cannot throw, so no error of a call escapes a handler that
    was given a payload. *)
Lemma send_message_never_throws (P : string) (v : Version)
  (sock : SocketId) (d : Payload.t) (s : Script) (st : Store) :
  returns (run (send_message P v sock (Some d)) s st).
Proof.
  destruct v; simpl; destruct (missing_data d);
    try (now exists tt);
    apply try_catch_is_a_boundary; intros e s' st'; now exists tt.
Qed.

(** Cut a log that ends with the three calls of the catch block. *)
Ltac cut_log :=
  do 2 eexists;
  first
    [ exists (@nil Action); split; [reflexivity|]
    | eexists [_]; split; [reflexivity|]
    | eexists [_; _]; split; [reflexivity|]
    | eexists [_; _; _]; split; [reflexivity|]
    | eexists [_; _; _; _]; split; [reflexivity|]
    | eexists [_; _; _; _; _]; split; [reflexivity|]
    | eexists [_; _; _; _; _; _]; split; [reflexivity|]
    | eexists [_; _; _; _; _; _; _]; split; [reflexivity|] ].

(** The first version recovers from every failure of a validated event:
    nothing escapes the handler, and when a call fails the last thing the
    handler does is to emit the fallback reply, once, to the socket the
    event came from. *)
Lemma send_message_v1_recovers (P : string) (sock : SocketId)
  (d : Payload.t) (s : Script) (st : Store) :
  missing_data d = false ->
  let r := run (send_message_v1 P sock (Some d)) s st in
  result r = inr tt
  /\ (any_failure (log r) = true ->
      exists id_now stamp before,
        log r = before ++ [ClockRead id_now; ClockRead stamp;
                           Emission sock "receive_message"
                             (fallback_reply id_now stamp)]
        /\ emitted before = []
        /\ well_formed (fallback_reply id_now stamp) = true
        /\ Reply.content (fallback_reply id_now stamp) = apology).
Proof.
  intros M. enter M. crunch.
  all: split; [reflexivity|]; intros F; try discriminate F.
  all: cut_log; repeat split.
Qed.

(** The second version catches every failure as well, and then says
    nothing: when a call fails no event is emitted at all. *)
Lemma send_message_v2_keeps_silent (P : string) (sock : SocketId)
  (d : Payload.t) (s : Script) (st : Store) :
  missing_data d = false ->
  let r := run (send_message_v2 P sock (Some d)) s st in
  result r = inr tt
  /\ (any_failure (log r) = true -> emitted (log r) = []).
Proof.
  intros M. enter M. crunch.
  all: split; [reflexivity|]; intros F; try discriminate F; reflexivity.
Qed.

(** C1, second version of the file.  The event of [help] passes the guard
    and the generator fails at its call: the handler returns normally,
    the user message is stored, and no event at all is emitted, so the
    client gets no fallback reply. *)
Theorem v2_generation_failure_unanswered :
  let r := run (send_message_v2 system_prompt "s1" (Some help))
               generator_fails empty_store in
  missing_data help = false
  /\ generation_failed (log r) = true
  /\ result r = inr tt
  /\ map Message.content (messages (store r)) = ["Help"]
  /\ emitted (log r) = [].
Proof.
  cbv zeta. repeat split.
Qed.

(** C2. In the first version, when the generator fails for a validated
    event, nothing escapes the handler; the store holds one more message
    than before, the user message of the event, and no assistant message;
    the handler ends by reading the clock and emitting one reply to the
    socket of the event: the fixed apology, well formed, with the
    transient id [temp_error_<clock>], which is the id of no stored
    message, and with the clock as its timestamp. *)
Theorem fallback_never_persists (P : string) (sock : SocketId)
  (d : Payload.t) (s : Script) (st : Store) :
  missing_data d = false ->
  let r := run (send_message_v1 P sock (Some d)) s st in
  generation_failed (log r) = true ->
  result r = inr tt
  /\ (exists userMessageDoc,
        messages (store r) = messages st ++ [userMessageDoc]
        /\ persisted_messages (log r) = [userMessageDoc]
        /\ Message.senderType userMessageDoc = "user"
        /\ Message.content userMessageDoc = js_String (Payload.content d))
  /\ (exists id_now stamp before,
        log r = before ++ [ClockRead id_now; ClockRead stamp;
                           Emission sock "receive_message"
                             (fallback_reply id_now stamp)]
        /\ emitted before = []
        /\ well_formed (fallback_reply id_now stamp) = true
        /\ Reply.content (fallback_reply id_now stamp) <> ""
        /\ Reply.timestamp (fallback_reply id_now stamp) = stamp
        /\ forall m, In m (messages (store r)) ->
                     ObjectId_toString (Message._id m)
                     <> Reply.id (fallback_reply id_now stamp)).
Proof.
  intros M. enter M. crunch.
  all: try discriminate.
  all: intros _; split; [reflexivity|]; split.
  all: try (eexists; repeat split; reflexivity).
  all: cut_log; repeat split; try apply apology_not_empty.
  all: intros m _ E; symmetry in E;
    now apply transient_id_is_no_ObjectId in E.
Qed.

Lemma fallback_never_persists_witness :
  let r := run (send_message_v1 system_prompt "s1" (Some help))
               generator_fails empty_store in
  missing_data help = false
  /\ generation_failed (log r) = true
  /\ result r = inr tt.
Proof.
  assert (M : missing_data help = false) by reflexivity.
  assert (G : generation_failed
                (log (run (send_message_v1 system_prompt "s1" (Some help))
                          generator_fails empty_store)) = true)
    by reflexivity.
  cbv zeta. split; [exact M|]. split; [exact G|].
  exact (proj1 (fallback_never_persists system_prompt "s1" help
                  generator_fails empty_store M G)).
Defined.

Lemma chat_history_ordered_projection_witness :
  "u1" <> ""
  /\ no_faults []
  /\ store (run (chat_history "u1") [] sample_store) = sample_store.
Proof.
  assert (N : "u1" <> "") by discriminate.
  assert (F : no_faults []) by constructor.
  split; [exact N|]. split; [exact F|].
  exact (proj1 (chat_history_ordered_projection "u1" [] sample_store N F)).
Defined.

Lemma single_thread_per_identity_witness :
  unique_threads sample_store
  /\ length (threads_of "u1"
               (handle_all system_prompt two_more_calls sample_store)) <= 1.
Proof.
  assert (U : unique_threads sample_store).
  { unfold unique_threads. simpl. constructor; [intros []|constructor]. }
  split; [exact U|].
  exact (proj1 (single_thread_per_identity system_prompt two_more_calls
                  sample_store "u1" U)).
Defined.

(** ** Handlers in flight together *)

Lemma node_step_unique_threads (P : string) (n n' : Node) :
  node_step P n n' ->
  unique_threads (node_store n) -> unique_threads (node_store n').
Proof.
  intros H U. inversion H; subst; simpl; auto.
  now apply exec_unique_threads.
Qed.

(** However the handlers of a node interleave at their calls, at most one
    thread exists per identity. *)
Lemma interleaved_single_thread (P : string) (n n' : Node) (u : string) :
  unique_threads (node_store n) ->
  node_steps P n n' ->
  length (threads_of u (node_store n')) <= 1.
Proof.
  intros U H. apply unique_threads_at_most_one.
  induction H as [n|n1 n2 n3 H12 IH H23]; [assumption|].
  eapply node_step_unique_threads; eauto.
Qed.

(** ** Specified properties: replies, writes and order *)

(** C6, as the claim words it.  In scenario A (a fresh identity, the
    generator answers) the one reply emitted carries the sender kind
    [ai], which is none of [user], [assistant], [human_agent]. *)
Lemma senderType_literal_counterexample :
  let r := run (send_message_v1 system_prompt "s1" (Some hello))
               generator_answers empty_store in
  map (fun e => Reply.senderType (snd e)) (emitted (log r)) = ["ai"]
  /\ ~ In "ai" ["user"; "assistant"; "human_agent"].
Proof.
  split; [reflexivity|].
  simpl. intros [H|[H|[H|[]]]]; discriminate H.
Qed.

(** C6, amended.  Whatever the payload, the store and the decisions of the
    world, every event either version of the handler emits goes to the
    socket of the inbound event, is named [receive_message], and carries
    the sender kind [ai], one of the three kinds of the Message schema
    ([user], [ai], [human_agent]); this holds for the reply on success
    and for the fallback reply alike. *)
Theorem emitted_senderType (P : string) (v : Version) (sock : SocketId)
  (data : option Payload.t) (s : Script) (st : Store)
  (sk : SocketId) (ev : string) (p : Reply.t) :
  In (sk, ev, p) (emitted (log (run (send_message P v sock data) s st))) ->
  sk = sock
  /\ ev = "receive_message"
  /\ Reply.senderType p = "ai"
  /\ In (Reply.senderType p) Message.senderType_enum.
Proof.
  destruct data as [d|]; [|destruct v; intros []].
  destruct (missing_data d) eqn:M.
  - destruct v; cbn; rewrite M; intros [].
  - destruct v; enter M; crunch.
    all: intros H; repeat (destruct H as [H|H]); try contradiction.
    all: inversion H; subst; cbn.
    all: repeat split; right; left; reflexivity.
Qed.

Lemma emitted_senderType_witness :
  let r := run (send_message system_prompt V1 "s1" (Some help))
               generator_fails empty_store in
  In ("s1", "receive_message", fallback_reply 2004 2005) (emitted (log r))
  /\ Reply.senderType (fallback_reply 2004 2005) = "ai".
Proof.
  assert (H : In ("s1", "receive_message", fallback_reply 2004 2005)
                (emitted (log (run (send_message system_prompt V1 "s1"
                                      (Some help))
                                   generator_fails empty_store))))
    by (left; reflexivity).
  cbv zeta. split; [exact H|].
  exact (proj1 (proj2 (proj2
    (emitted_senderType system_prompt V1 "s1" (Some help) generator_fails
       empty_store "s1" "receive_message" (fallback_reply 2004 2005) H)))).
Defined.

(** C7, as the claim words it.  In scenario A the handler writes the store
    three times (the thread and two messages), not at most twice; and
    when the thread lookup fails no user message is written at all. *)
Lemma two_writes_counterexample :
  let a := run (send_message_v1 system_prompt "s1" (Some hello))
               generator_answers empty_store in
  let b := run (send_message_v1 system_prompt "s1" (Some hello))
               lookup_fails empty_store in
  missing_data hello = false
  /\ store_writes (log a) = 3
  /\ ~ store_writes (log a) <= 2
  /\ persisted_messages (log b) = [].
Proof.
  cbv zeta. split; [reflexivity|].
  assert (E : store_writes
                (log (run (send_message_v1 system_prompt "s1" (Some hello))
                          generator_answers empty_store)) = 3)
    by reflexivity.
  split; [exact E|]. split; [rewrite E; lia | reflexivity].
Qed.

(** C7, amended.  Handling a validated event writes at most one thread
    (created or saved), and exactly one when step 1 does not fail.  It
    writes at most two messages, and these are all the messages the store
    gains.  The user message, with the content of the event, is written
    whenever neither step 1 nor that write fails, and no message at all
    when one of them does.  The assistant message follows it exactly when
    no call fails, with the text the generator returned for the prompt of
    the event.  The first version emits exactly one event, to the socket
    of the inbound event. *)
Theorem frame_of_one_event (P : string) (v : Version) (sock : SocketId)
  (d : Payload.t) (s : Script) (st : Store) :
  missing_data d = false ->
  let r := run (send_message P v sock (Some d)) s st in
  length (thread_writes (log r)) <= 1
  /\ length (persisted_messages (log r)) <= 2
  /\ messages (store r) = messages st ++ persisted_messages (log r)
  /\ (persisted_messages (log r) = []
      \/ (exists userMessageDoc,
            persisted_messages (log r) = [userMessageDoc]
            /\ Message.senderType userMessageDoc = "user")
      \/ (exists userMessageDoc aiMessageDoc,
            persisted_messages (log r) = [userMessageDoc; aiMessageDoc]
            /\ Message.senderType userMessageDoc = "user"
            /\ Message.senderType aiMessageDoc = "ai"
            /\ In (Generation (fullPrompt P d)
                     (inr (Message.content aiMessageDoc))) (log r)))
  /\ (v = V1 -> exists p, emitted (log r) = [(sock, "receive_message", p)])
  /\ (thread_failed (log r) = false -> length (thread_writes (log r)) = 1)
  /\ (thread_failed (log r) = false ->
      user_write_failed (log r) = false ->
      exists userMessageDoc others,
        persisted_messages (log r) = userMessageDoc :: others
        /\ Message.senderType userMessageDoc = "user"
        /\ Message.content userMessageDoc = js_String (Payload.content d))
  /\ (thread_failed (log r) = true \/ user_write_failed (log r) = true ->
      persisted_messages (log r) = [])
  /\ (any_failure (log r) = false <->
      length (persisted_messages (log r)) = 2).
Proof.
  intros M. destruct v; enter M; crunch.
  all: try congruence.
  all: rewrite ?app_nil_r, <- ?app_assoc.
  all: split; [cbn; lia|].
  all: split; [cbn; lia|].
  all: split; [reflexivity|].
  all: split;
    [ first [ left; reflexivity
            | right; left; eexists; split; reflexivity
            | right; right; do 2 eexists; repeat split; cbn; auto 10 ] |].
  all: split; [intros V; try discriminate V; eexists; reflexivity|].
  all: split; [intros F; try discriminate F; reflexivity|].
  all: split;
    [intros F U; try discriminate F; try discriminate U;
     do 2 eexists; repeat split|].
  all: split;
    [intros [F|F]; try discriminate F; reflexivity|].
  all: split; intros F; try discriminate F; reflexivity.
Qed.

Lemma frame_of_one_event_witness :
  let r := run (send_message system_prompt V1 "s1" (Some hello))
               generator_answers empty_store in
  missing_data hello = false
  /\ length (thread_writes (log r)) <= 1.
Proof.
  assert (M : missing_data hello = false) by reflexivity.
  cbv zeta. split; [exact M|].
  exact (proj1 (frame_of_one_event system_prompt V1 "s1" hello
                  generator_answers empty_store M)).
Defined.

(** The first version supplies the display name [Client] when the payload
    has none: the run is the run of the same payload with [Client]
    supplied, and the user message the store accepts carries that name. *)
Lemma send_message_v1_default_senderName (P : string) (sock : SocketId)
  (d : Payload.t) (s : Script) (st : Store) :
  missing_data d = false ->
  Payload.senderName d = None ->
  let r := run (send_message_v1 P sock (Some d)) s st in
  r = run (send_message_v1 P sock (Some (with_senderName "Client" d))) s st
  /\ (forall m, In m (persisted_messages (log r)) ->
                Message.senderType m = "user" ->
                Message.senderName m = "Client").
Proof.
  intros M N. destruct d as [uid email content senderName].
  simpl in N. subst senderName. split; [reflexivity|].
  enter M. crunch.
  all: intros m H K; repeat (destruct H as [H|H]); try contradiction.
  all: subst m; cbn in *; try reflexivity; discriminate K.
Qed.

(** C8, second version of the file.  The event of [hello] passes the
    guard and carries no [senderName].  The second version hands the
    absent name to [Message.create], the schema ([required: true]) rejects
    the user message, and the handler stops there: no message is stored,
    the generator is not called and nothing is emitted. *)
Theorem v2_rejects_absent_senderName :
  let r := run (send_message_v2 system_prompt "s1" (Some hello))
               generator_answers empty_store in
  missing_data hello = false
  /\ Payload.senderName hello = None
  /\ map failed (log r) = [false; false; true]
  /\ (exists f, nth_error (log r) 2
                = Some (MessageWrite f (inl (ValidationError ["senderName"]))))
  /\ result r = inr tt
  /\ messages (store r) = []
  /\ emitted (log r) = [].
Proof.
  cbv zeta. repeat split. eexists. reflexivity.
Qed.

(** C9. In the log of a validated event, handled by either version, the
    stages that occur do so once and in the order user message write,
    generation call, assistant message write, reply emission.  The
    generation call begins only after the user message write completed,
    the assistant message write only after the generation call completed,
    and the reply is emitted only after the assistant message write
    completed, unless a call failed before (the emission is then the
    fallback).  When no call fails all four stages occur. *)
Theorem pipeline_order (P : string) (v : Version) (sock : SocketId)
  (d : Payload.t) (s : Script) (st : Store) :
  missing_data d = false ->
  let l := log (run (send_message P v sock (Some d)) s st) in
  StronglySorted lt (stages l)
  /\ preceded_by (completes UserWrite) (begins GenerationCall) l
  /\ preceded_by (completes GenerationCall) (begins AssistantWrite) l
  /\ preceded_by (fun a => completes AssistantWrite a || failed a)
       (begins ReplyEmission) l
  /\ (any_failure l = false -> stages l = [0; 1; 2; 3]).
Proof.
  intros M. destruct v; enter M; crunch.
  all: split; [apply increasing_sorted; reflexivity|].
  all: split; [apply preceded_by_checked; reflexivity|].
  all: split; [apply preceded_by_checked; reflexivity|].
  all: split; [apply preceded_by_checked; reflexivity|].
  all: intros F; try discriminate F; reflexivity.
Qed.

Lemma pipeline_order_witness :
  let l := log (run (send_message system_prompt V1 "s1" (Some hello))
                    generator_answers empty_store) in
  missing_data hello = false
  /\ StronglySorted lt (stages l).
Proof.
  assert (M : missing_data hello = false) by reflexivity.
  cbv zeta. split; [exact M|].
  exact (proj1 (pipeline_order system_prompt V1 "s1" hello
                  generator_answers empty_store M)).
Defined.

(** C10. In the first version, when a call fails while a validated event
    is handled, the one reply emitted has the id [temp_error_] followed by
    the decimal reading of the clock and the sender name [System Error];
    when no call fails, the one reply emitted is the projection of the
    assistant message the store accepted, with the rendering of its
    object id as id and the sender name [K'artz Assistant].  The two can
    always be told apart: no object id renders as such a transient id,
    and the two sender names differ. *)
Theorem fallback_is_distinguishable (P : string) (sock : SocketId)
  (d : Payload.t) (s : Script) (st : Store) :
  missing_data d = false ->
  let r := run (send_message_v1 P sock (Some d)) s st in
  (any_failure (log r) = true ->
   exists id_now stamp before,
     log r = before ++ [ClockRead id_now; ClockRead stamp;
                        Emission sock "receive_message"
                          (fallback_reply id_now stamp)]
     /\ emitted before = []
     /\ Reply.id (fallback_reply id_now stamp)
        = ("temp_error_" ++ number_toString id_now)%string
     /\ Reply.senderName (fallback_reply id_now stamp) = "System Error")
  /\ (any_failure (log r) = false ->
      exists aiMessageDoc,
        emitted (log r) = [(sock, "receive_message", formatted aiMessageDoc)]
        /\ In aiMessageDoc (messages (store r))
        /\ Message.senderType aiMessageDoc = "ai"
        /\ Reply.id (formatted aiMessageDoc)
           = ObjectId_toString (Message._id aiMessageDoc)
        /\ Reply.senderName (formatted aiMessageDoc) = "K'artz Assistant")
  /\ (forall id_now stamp (m : Message.t),
        Reply.id (fallback_reply id_now stamp) <> Reply.id (formatted m)
        /\ Reply.senderName (fallback_reply id_now stamp)
           <> "K'artz Assistant").
Proof.
  intros M. enter M. crunch.
  all: split; [intros F; try discriminate F|].
  all: try (cut_log; repeat split).
  all: split; [intros F; try discriminate F|].
  all: try (match goal with
            | |- context [In _ (_ ++ [?m])] => exists m
            end;
            split; [reflexivity|]; split;
            [apply in_or_app; right; left; reflexivity | repeat split]).
  all: intros id_now stamp m; split;
    [apply transient_id_is_no_ObjectId | discriminate].
Qed.

Lemma fallback_is_distinguishable_witness :
  let r := run (send_message_v1 system_prompt "s1" (Some help))
               generator_fails empty_store in
  missing_data help = false
  /\ (any_failure (log r) = true ->
      exists id_now stamp before,
        log r = before ++ [ClockRead id_now; ClockRead stamp;
                           Emission "s1" "receive_message"
                             (fallback_reply id_now stamp)]
        /\ emitted before = []
        /\ Reply.id (fallback_reply id_now stamp)
           = ("temp_error_" ++ number_toString id_now)%string
        /\ Reply.senderName (fallback_reply id_now stamp) = "System Error").
Proof.
  assert (M : missing_data help = false) by reflexivity.
  cbv zeta. split; [exact M|].
  exact (proj1 (fallback_is_distinguishable system_prompt "s1" help
                  generator_fails empty_store M)).
Defined.

(** * Further properties *)

(** ** The history endpoint *)

Lemma ObjectId_toString_not_empty (i : ObjectId) :
  (ObjectId_toString i =? "") = false.
Proof.
  apply String.eqb_neq. intros E.
  pose proof (hex_fixed_length 24 i) as L.
  unfold ObjectId_toString in E. rewrite E in L. discriminate L.
Qed.

(** The run of the endpoint when the thread lookup answers. *)
Lemma chat_history_found (uid : string) (s : Script) (st : Store)
  (chat : Chat.t) :
  uid <> "" ->
  no_faults s ->
  findOne_by_userId uid st = Some chat ->
  result (run (chat_history uid) s st)
  = inr (json 200
           (map formatted
              (sort_by_createdAt
                 (filter (in_chat (Chat._id chat)) (messages st))))).
Proof.
  intros Huid Hs F.
  destruct (no_faults_next s Hs) as [F1 Hs'].
  destruct (no_faults_next (tl s) Hs') as [F2 _].
  unfold chat_history. apply String.eqb_neq in Huid. rewrite Huid.
  cbn. rewrite F1. cbn. rewrite F. cbn. rewrite F2. reflexivity.
Qed.

(** X1. The endpoint always answers, and with one of three responses:
    400 exactly when the identity is empty (and then without a call),
    500 exactly when the identity is not empty and a read of the store
    failed, and otherwise 200 with a body.  No error escapes it and a
    failure never comes with a partial body. *)
Theorem chat_history_responses (uid : string) (s : Script) (st : Store) :
  let r := run (chat_history uid) s st in
  (uid = "" ->
   result r = inr (json_error 400 "Missing user UID") /\ log r = [])
  /\ (uid <> "" -> any_failure (log r) = true ->
      result r = inr (json_error 500 "Internal Server Error fetching history"))
  /\ (uid <> "" -> any_failure (log r) = false ->
      exists body, result r = inr (json 200 body)).
Proof.
  unfold chat_history. destruct (uid =? "") eqn:E.
  - apply String.eqb_eq in E. subst uid. cbn.
    repeat split; intros H; try reflexivity; now elim H.
  - apply String.eqb_neq in E. crunch.
    all: repeat split; intros; try contradiction; try discriminate;
      try reflexivity; eexists; reflexivity.
Qed.

(** X2. The endpoint only reads: whatever the identity, the store and the
    faults, the store afterwards is the store before, the calls made are
    at most two and all of them reads, no document is written, the
    generator is not called and nothing is emitted on a socket. *)
Theorem chat_history_only_reads (uid : string) (s : Script) (st : Store) :
  let r := run (chat_history uid) s st in
  store r = st
  /\ length (log r) <= 2
  /\ forallb is_read (log r) = true
  /\ store_writes (log r) = 0
  /\ prompts (log r) = []
  /\ emitted (log r) = [].
Proof.
  unfold chat_history. crunch.
  all: repeat split; cbn; lia.
Qed.

(** X3. Asking twice gives the same answer: with store reads that succeed,
    a second request for the same identity, whenever it is made, gets the
    response of the first. *)
Theorem chat_history_idempotent (uid : string) (s1 s2 : Script) (st : Store) :
  no_faults s1 ->
  no_faults s2 ->
  result (run (chat_history uid) s2 (store (run (chat_history uid) s1 st)))
  = result (run (chat_history uid) s1 st).
Proof.
  intros H1 H2.
  assert (E : store (run (chat_history uid) s1 st) = st).
  { unfold chat_history. crunch; reflexivity. }
  rewrite E.
  destruct (no_faults_next s1 H1) as [A1 H1'].
  destruct (no_faults_next (tl s1) H1') as [A2 _].
  destruct (no_faults_next s2 H2) as [B1 H2'].
  destruct (no_faults_next (tl s2) H2') as [B2 _].
  unfold chat_history. destruct (uid =? ""); [reflexivity|].
  cbn. rewrite A1, B1. cbn.
  destruct (findOne_by_userId uid st); cbn; [|reflexivity].
  now rewrite A2, B2.
Qed.

Lemma chat_history_idempotent_witness :
  no_faults [at_time 7; at_time 8]
  /\ no_faults [at_time 99]
  /\ result (run (chat_history "u1") [at_time 99]
               (store (run (chat_history "u1") [at_time 7; at_time 8]
                         sample_store)))
     = result (run (chat_history "u1") [at_time 7; at_time 8] sample_store).
Proof.
  assert (H1 : no_faults [at_time 7; at_time 8])
    by (repeat constructor).
  assert (H2 : no_faults [at_time 99]) by (repeat constructor).
  split; [exact H1|]. split; [exact H2|].
  exact (chat_history_idempotent "u1" [at_time 7; at_time 8] [at_time 99]
           sample_store H1 H2).
Defined.

(** ** What the schemas guarantee *)

Ltac split_on_strings :=
  repeat match goal with
         | H : String.eqb ?a ?b = _ |- context [String.eqb ?a ?b] =>
             rewrite H; cbn
         | |- context [String.eqb ?a ?b] =>
             is_var a; destruct (String.eqb a b) eqn:?; cbn
         end.

Lemma Message_validate_ok (i : ObjectId) (now : Z) (f : Message.fields) :
  is_nil (Message_validate f) = true ->
  valid_message (new_message i now f) = true.
Proof.
  destruct f as [cid [c|] [t|] [n|] u];
    unfold Message_validate, valid_message, new_message, check_required,
      check_enum, truthy; cbn;
    split_on_strings; intros H; try discriminate H; reflexivity.
Qed.

Lemma Chat_validate_ok (i : ObjectId) (built now : Z) (f : Chat.fields) :
  is_nil (Chat_validate f) = true ->
  valid_chat (new_chat i built now f) = true.
Proof.
  destruct f as [[u|] [e|] [t|]];
    unfold Chat_validate, valid_chat, new_chat, check_required,
      check_enum, truthy, js_or; cbn;
    split_on_strings; intros H; try discriminate H; reflexivity.
Qed.

Lemma update_chat_valid (now : Z) (doc : Chat.t) (l : list Chat.t) :
  Forall (fun c => valid_chat c = true) l ->
  Forall (fun c => valid_chat c = true) (update_chat now doc l).
Proof.
  unfold update_chat. intros H. apply Forall_map.
  eapply Forall_impl; [|exact H].
  intros c Hc. now destruct (same_id doc c).
Qed.

(** Every call leaves a store of schema-valid documents schema-valid. *)
Lemma exec_store_valid {X} (op : Op X) (c : Choice) (st : Store) :
  store_valid st -> store_valid (snd (exec op c st)).
Proof.
  intros [Hm Hc].
  destruct op; simpl;
    repeat match goal with
           | |- context [if ?b then _ else _] => destruct b eqn:?
           end; simpl; try (split; assumption).
  - split; [assumption|]. simpl. apply Forall_app. split; [assumption|].
    constructor; [|constructor].
    apply Chat_validate_ok. now apply negb_false_iff.
  - split; [assumption|]. simpl. now apply update_chat_valid.
  - split; [|assumption]. simpl. apply Forall_app. split; [assumption|].
    constructor; [|constructor].
    apply Message_validate_ok. now apply negb_false_iff.
Qed.

Lemma run_store_valid {A} (p : Prog A) (s : Script) (st : Store) :
  store_valid st -> store_valid (store (run p s st)).
Proof.
  apply run_invariant. intros X op c st'. apply exec_store_valid.
Qed.

(** X4. The schemas hold of everything the handlers store: handle any
    sequence of events, by either version, on a store whose messages have
    non-empty content and sender name and a sender kind of the enum, and
    whose threads have non-empty user id and address and a status of the
    enum, and the store afterwards is such a store again. *)
Theorem handlers_keep_schemas (P : string) (calls : list Call) (st : Store) :
  store_valid st -> store_valid (handle_all P calls st).
Proof.
  revert st. induction calls as [|c calls IH]; intros st H; simpl.
  - exact H.
  - apply IH. unfold handle. now apply run_store_valid.
Qed.

Lemma handlers_keep_schemas_witness :
  store_valid sample_store
  /\ store_valid (handle_all system_prompt two_more_calls sample_store).
Proof.
  assert (V : store_valid sample_store).
  { split; repeat constructor. }
  split; [exact V|].
  exact (handlers_keep_schemas system_prompt two_more_calls sample_store V).
Defined.

(** X5. From a store of schema-valid messages the endpoint returns well
    formed entries only: every entry of a 200 body has a non-empty id,
    non-empty content, a sender kind of the enum and a non-empty sender
    name. *)
Theorem chat_history_entries_well_formed (uid : string) (s : Script)
  (st : Store) (body : list Reply.t) :
  store_valid st ->
  result (run (chat_history uid) s st) = inr (json 200 body) ->
  Forall (fun p => well_formed p = true) body.
Proof.
  intros [Hm _]. unfold chat_history. crunch.
  all: intros E; inversion E; subst; clear E; try constructor.
  apply Forall_map. apply Forall_forall. intros m Hin.
  apply (Permutation_in _ (sort_by_createdAt_perm _)) in Hin.
  apply filter_In in Hin. destruct Hin as [Hin _].
  rewrite Forall_forall in Hm. specialize (Hm m Hin).
  unfold valid_message in Hm. unfold well_formed, formatted. cbn.
  rewrite ObjectId_toString_not_empty. exact Hm.
Qed.

Lemma chat_history_entries_well_formed_witness :
  store_valid sample_store
  /\ (exists body,
        result (run (chat_history "u1") [] sample_store)
        = inr (json 200 body)
        /\ Forall (fun p => well_formed p = true) body).
Proof.
  assert (V : store_valid sample_store).
  { split; repeat constructor. }
  split; [exact V|].
  eexists. split; [reflexivity|].
  exact (chat_history_entries_well_formed "u1" [] sample_store _ V eq_refl).
Defined.

(** ** What the handlers do to the store *)

Lemma saved_thread_in_store (u : string) (st : Store) (c : Chat.t)
  (now n' : Z) :
  findOne_by_userId u st = Some c ->
  In (touched now (set_lastMessageAt n' c) c)
     (update_chat now (set_lastMessageAt n' c) (chats st)).
Proof.
  intros F. apply findOne_some in F. destruct F as [Hin _].
  unfold update_chat.
  apply in_map with (f := fun x =>
    if same_id (set_lastMessageAt n' c) x
    then touched now (set_lastMessageAt n' c) x else x) in Hin.
  unfold same_id in Hin at 1. simpl in Hin.
  now rewrite N.eqb_refl in Hin.
Qed.

Lemma findOne_userId (u : string) (st : Store) (c : Chat.t) :
  findOne_by_userId u st = Some c -> Chat.userId c = u.
Proof. intros F. now apply findOne_some in F. Qed.

(** One event appends at most two messages and at most one thread, and
    changes nothing else but the dates [save] writes. *)
Lemma send_message_appends (P : string) (v : Version) (sock : SocketId)
  (data : option Payload.t) (s : Script) (st : Store) :
  let r := run (send_message P v sock data) s st in
  (exists more, messages (store r) = messages st ++ more /\ length more <= 2)
  /\ (exists more,
        map frozen (chats (store r)) = map frozen (chats st) ++ more
        /\ length more <= 1).
Proof.
  assert (N : forall A (l : list A), exists more, l = l ++ more
                                                   /\ length more <= 2).
  { intros A l. exists []. split; [now rewrite app_nil_r | simpl; lia]. }
  assert (N1 : forall A (l : list A), exists more, l = l ++ more
                                                    /\ length more <= 1).
  { intros A l. exists []. split; [now rewrite app_nil_r | simpl; lia]. }
  destruct data as [d|]; [|destruct v; cbn; split; auto].
  destruct (missing_data d) eqn:M.
  - destruct v; cbn; rewrite M; cbn; split; auto.
  - destruct v; enter M; crunch.
    all: rewrite ?update_chat_frozen, ?map_app, <- ?app_assoc; cbn.
    all: split; auto.
    all: try (eexists; split; [reflexivity | cbn; lia]).
Qed.

(** X6. The handlers only append.  After any sequence of events, handled
    by either version, the messages of the store are the messages before
    followed by at most two new ones per event, and the threads are the
    threads before, unchanged in id, user id, address, status and
    creation date, followed by at most one new thread per event: no
    message is ever changed or removed and no thread removed. *)
Theorem handlers_only_append (P : string) (calls : list Call) (st : Store) :
  (exists more,
     messages (handle_all P calls st) = messages st ++ more
     /\ length more <= 2 * length calls)
  /\ (exists more,
        map frozen (chats (handle_all P calls st))
        = map frozen (chats st) ++ more
        /\ length more <= length calls).
Proof.
  revert st. induction calls as [|c calls IH]; intros st; simpl.
  - split; exists []; rewrite app_nil_r; split; auto.
  - destruct (send_message_appends P (version c) (socket c) (data c)
                (script c) st) as [(m1 & E1 & L1) (t1 & F1 & K1)].
    destruct (IH (handle P st c)) as [(m2 & E2 & L2) (t2 & F2 & K2)].
    unfold handle in *. cbv zeta in E1, F1. split.
    + exists (m1 ++ m2). rewrite E2, E1, app_assoc. split; [reflexivity|].
      rewrite length_app. lia.
    + exists (t1 ++ t2). rewrite F2, F1, app_assoc. split; [reflexivity|].
      rewrite length_app. lia.
Qed.

(** X7. Every message a handler stores for a validated event belongs to
    a thread of the sender: it is in the store afterwards, its [chatId]
    is the id of a stored thread whose user id is the uid of the event,
    and it is either the user's message, with the content and the uid of
    the event, or the assistant's, with no sender uid. *)
Theorem messages_go_to_the_senders_thread (P : string) (v : Version)
  (sock : SocketId) (d : Payload.t) (s : Script) (st : Store)
  (m : Message.t) :
  missing_data d = false ->
  let r := run (send_message P v sock (Some d)) s st in
  In m (persisted_messages (log r)) ->
  In m (messages (store r))
  /\ (exists chat,
        In chat (chats (store r))
        /\ Chat.userId chat = js_String (Payload.uid d)
        /\ Message.chatId m = Chat._id chat)
  /\ (Message.senderType m = "user"
      /\ Message.senderUid m = Payload.uid d
      /\ Message.content m = js_String (Payload.content d)
      \/ Message.senderType m = "ai" /\ Message.senderUid m = None).
Proof.
  intros M. destruct v; enter M; crunch.
  all: intros H; repeat (destruct H as [H|H]); try contradiction; subst m.
  all: split; [rewrite <- ?app_assoc; apply in_or_app; right; cbn; auto|].
  all: split; [|cbn; auto].
  all: first
    [ eexists; split; [apply in_or_app; right; left; reflexivity|];
      split; reflexivity
    | eexists; split; [eapply saved_thread_in_store; eassumption|];
      split; [cbn; eapply findOne_userId; eassumption | reflexivity] ].
Qed.

Lemma messages_go_to_the_senders_thread_witness :
  let r := run (send_message system_prompt V1 "s1" (Some more_info))
               second_round sample_store in
  let m := new_message 4%N 5005%Z
             {| Message.f_chatId := 0%N;
                Message.f_content := Some "Gladly";
                Message.f_senderType := Some "ai";
                Message.f_senderName := Some "K'artz Assistant";
                Message.f_senderUid := None |} in
  missing_data more_info = false
  /\ In m (persisted_messages (log r))
  /\ In m (messages (store r)).
Proof.
  assert (M : missing_data more_info = false) by reflexivity.
  cbv zeta. split; [exact M|].
  assert (H : In (new_message 4%N 5005%Z
                    {| Message.f_chatId := 0%N;
                       Message.f_content := Some "Gladly";
                       Message.f_senderType := Some "ai";
                       Message.f_senderName := Some "K'artz Assistant";
                       Message.f_senderUid := None |})
                (persisted_messages
                   (log (run (send_message system_prompt V1 "s1"
                                (Some more_info))
                           second_round sample_store))))
    by (right; left; reflexivity).
  split; [exact H|].
  exact (proj1 (messages_go_to_the_senders_thread system_prompt V1 "s1"
                  more_info second_round sample_store _ M H)).
Defined.

(** ** Failures and edge cases of the handlers *)

(** X8. An empty answer of the generator counts as a failure: the schema
    requires content, so [Message.create] rejects the assistant message
    with a validation error on [content]; no assistant message is stored,
    and the first version emits the fallback reply while the second
    emits nothing. *)
Theorem empty_answer_is_rejected (P : string) (v : Version)
  (sock : SocketId) (d : Payload.t) (s : Script) (st : Store) :
  missing_data d = false ->
  let r := run (send_message P v sock (Some d)) s st in
  empty_answer (log r) = true ->
  (exists f, In (MessageWrite f (inl (ValidationError ["content"]))) (log r)
             /\ Message.f_senderType f = Some "ai")
  /\ (exists userMessageDoc,
        messages (store r) = messages st ++ [userMessageDoc]
        /\ Message.senderType userMessageDoc = "user")
  /\ (v = V1 ->
      exists id_now stamp,
        emitted (log r)
        = [(sock, "receive_message", fallback_reply id_now stamp)])
  /\ (v = V2 -> emitted (log r) = []).
Proof.
  intros M. destruct v; enter M; crunch.
  all: intros E; try discriminate E.
  all: split; [eexists; split; [cbn; auto 10 | reflexivity]|].
  all: split; [eexists; split; reflexivity|].
  all: split; intros V; try discriminate V; try reflexivity.
  all: do 2 eexists; reflexivity.
Qed.

Lemma empty_answer_is_rejected_witness :
  let r := run (send_message system_prompt V1 "s1" (Some hello))
               generator_mute empty_store in
  missing_data hello = false
  /\ empty_answer (log r) = true
  /\ (exists userMessageDoc,
        messages (store r) = messages empty_store ++ [userMessageDoc]
        /\ Message.senderType userMessageDoc = "user").
Proof.
  assert (M : missing_data hello = false) by reflexivity.
  assert (E : empty_answer
                (log (run (send_message system_prompt V1 "s1" (Some hello))
                          generator_mute empty_store)) = true)
    by reflexivity.
  cbv zeta. split; [exact M|]. split; [exact E|].
  exact (proj1 (proj2 (empty_answer_is_rejected system_prompt V1 "s1" hello
                         generator_mute empty_store M E))).
Defined.

(** X9. The generator sees the current message only.  Handling a
    validated event calls the generator at most once, and the prompt is
    the system prompt, a blank line, [Client Question: ] with the content
    of the event, and the line [K'artz Assistant Answer:]; it is the same
    whatever the store holds, whoever sends the content and whichever
    version handles it. *)
Theorem prompt_is_stateless (P : string) (v v' : Version)
  (sock sock' : SocketId) (d d' : Payload.t) (s s' : Script)
  (st st' : Store) (p p' : string) :
  missing_data d = false ->
  missing_data d' = false ->
  Payload.content d = Payload.content d' ->
  In p (prompts (log (run (send_message P v sock (Some d)) s st))) ->
  In p' (prompts (log (run (send_message P v' sock' (Some d')) s' st'))) ->
  p = p'
  /\ p = (P ++ newline ++ newline ++ "Client Question: "
          ++ js_String (Payload.content d) ++ newline
          ++ "K'artz Assistant Answer:")%string
  /\ length (prompts (log (run (send_message P v sock (Some d)) s st))) <= 1.
Proof.
  intros M M' C H H'.
  assert (A : forall w k e z t q,
             missing_data e = false ->
             In q (prompts (log (run (send_message P w k (Some e)) z t))) ->
             q = fullPrompt P e
             /\ length (prompts (log (run (send_message P w k (Some e)) z t)))
                <= 1).
  { clear. intros w k e z t q M. destruct w; enter M; crunch.
    all: intros H; repeat (destruct H as [H|H]); try contradiction.
    all: split; [now symmetry | lia]. }
  destruct (A v sock d s st p M H) as [E L].
  destruct (A v' sock' d' s' st' p' M' H') as [E' _].
  split; [|split; [exact E | exact L]].
  rewrite E, E'. unfold fullPrompt. now rewrite C.
Qed.

Lemma prompt_is_stateless_witness :
  let p := fullPrompt system_prompt hello in
  missing_data hello = false
  /\ In p (prompts (log (run (send_message system_prompt V1 "s1" (Some hello))
                           generator_answers empty_store)))
  /\ In p (prompts (log (run (send_message system_prompt V2 "s2"
                                (Some (with_senderName "Ann" hello)))
                           second_round sample_store)))
  /\ p = p.
Proof.
  assert (M : missing_data hello = false) by reflexivity.
  assert (M' : missing_data (with_senderName "Ann" hello) = false)
    by reflexivity.
  assert (H : In (fullPrompt system_prompt hello)
                (prompts (log (run (send_message system_prompt V1 "s1"
                                      (Some hello))
                                 generator_answers empty_store))))
    by (left; reflexivity).
  assert (H' : In (fullPrompt system_prompt hello)
                 (prompts (log (run (send_message system_prompt V2 "s2"
                                       (Some (with_senderName "Ann" hello)))
                                  second_round sample_store))))
    by (left; reflexivity).
  cbv zeta. split; [exact M|]. split; [exact H|]. split; [exact H'|].
  exact (proj1 (prompt_is_stateless system_prompt V1 V2 "s1" "s2" hello
                  (with_senderName "Ann" hello) generator_answers
                  second_round empty_store sample_store _ _ M M' eq_refl
                  H H')).
Defined.

(** X10. When step 1 fails (the lookup, the creation or the save of the
    thread, for whatever reason, a lost race on the unique index
    included) the event is given up: no message is stored, not even the
    user's, the generator is not called, and the first version emits the
    fallback reply while the second emits nothing. *)
Theorem thread_failure_gives_up (P : string) (v : Version)
  (sock : SocketId) (d : Payload.t) (s : Script) (st : Store) :
  missing_data d = false ->
  let r := run (send_message P v sock (Some d)) s st in
  thread_failed (log r) = true ->
  messages (store r) = messages st
  /\ persisted_messages (log r) = []
  /\ prompts (log r) = []
  /\ (v = V1 ->
      exists id_now stamp,
        emitted (log r)
        = [(sock, "receive_message", fallback_reply id_now stamp)])
  /\ (v = V2 -> emitted (log r) = []).
Proof.
  intros M. destruct v; enter M; crunch.
  all: intros E; try discriminate E.
  all: repeat split; intros V; try discriminate V.
  all: do 2 eexists; reflexivity.
Qed.

Lemma thread_failure_gives_up_witness :
  let r := run (send_message system_prompt V1 "s1" (Some hello))
               create_fails empty_store in
  missing_data hello = false
  /\ thread_failed (log r) = true
  /\ messages (store r) = messages empty_store.
Proof.
  assert (M : missing_data hello = false) by reflexivity.
  assert (E : thread_failed
                (log (run (send_message system_prompt V1 "s1" (Some hello))
                          create_fails empty_store)) = true)
    by reflexivity.
  cbv zeta. split; [exact M|]. split; [exact E|].
  exact (proj1 (thread_failure_gives_up system_prompt V1 "s1" hello
                  create_fails empty_store M E)).
Defined.

(** X11. Every reply either version emits is well formed, the reply on
    success included: its id, content and sender name are not empty and
    its sender kind is one of the enum.  (The content of a success reply
    cannot be empty because the schema has refused an empty assistant
    message before.) *)
Theorem emitted_replies_well_formed (P : string) (v : Version)
  (sock : SocketId) (data : option Payload.t) (s : Script) (st : Store)
  (sk : SocketId) (ev : string) (p : Reply.t) :
  In (sk, ev, p) (emitted (log (run (send_message P v sock data) s st))) ->
  well_formed p = true.
Proof.
  destruct data as [d|]; [|destruct v; intros []].
  destruct (missing_data d) eqn:M.
  - destruct v; cbn; rewrite M; intros [].
  - destruct v; enter M; crunch.
    all: intros H; repeat (destruct H as [H|H]); try contradiction.
    all: inversion H; subst; clear H.
    all: try apply fallback_reply_well_formed.
    all: unfold well_formed; cbn;
      rewrite ObjectId_toString_not_empty;
      match goal with
      | E : (?a =? "") = false |- context [?a =? ""] => rewrite E
      end; reflexivity.
Qed.

Lemma emitted_replies_well_formed_witness :
  let p := formatted (new_message 2%N 1004%Z
                        {| Message.f_chatId := 0%N;
                           Message.f_content := Some "Hi there";
                           Message.f_senderType := Some "ai";
                           Message.f_senderName := Some "K'artz Assistant";
                           Message.f_senderUid := None |}) in
  In ("s1", "receive_message", p)
     (emitted (log (run (send_message system_prompt V2 "s1"
                           (Some (with_senderName "Ann" hello)))
                      generator_answers empty_store)))
  /\ well_formed p = true.
Proof.
  assert (H : In ("s1", "receive_message",
                  formatted (new_message 2%N 1004%Z
                               {| Message.f_chatId := 0%N;
                                  Message.f_content := Some "Hi there";
                                  Message.f_senderType := Some "ai";
                                  Message.f_senderName :=
                                    Some "K'artz Assistant";
                                  Message.f_senderUid := None |}))
                (emitted (log (run (send_message system_prompt V2 "s1"
                                      (Some (with_senderName "Ann" hello)))
                                 generator_answers empty_store))))
    by (left; reflexivity).
  cbv zeta. split; [exact H|].
  exact (emitted_replies_well_formed system_prompt V2 "s1"
           (Some (with_senderName "Ann" hello)) generator_answers
           empty_store "s1" "receive_message" _ H).
Defined.

(** ** An exchange that succeeds, and the history after it *)

Lemma findOne_created (u : string) (st : Store) (c : Chat.t)
  (ms : list Message.t) (n : ObjectId) :
  findOne_by_userId u st = None ->
  Chat.userId c = u ->
  findOne_by_userId u
    {| chats := chats st ++ [c]; messages := ms; next_id := n |} = Some c.
Proof.
  unfold findOne_by_userId. simpl. intros F E.
  induction (chats st) as [|x l IH]; simpl in *.
  - unfold has_userId. now rewrite E, String.eqb_refl.
  - destruct (has_userId u x); [discriminate | auto].
Qed.

Lemma findOne_saved (u : string) (st : Store) (c : Chat.t) (now n' : Z)
  (ms : list Message.t) (n : ObjectId) :
  findOne_by_userId u st = Some c ->
  findOne_by_userId u
    {| chats := update_chat now (set_lastMessageAt n' c) (chats st);
       messages := ms; next_id := n |}
  = Some (touched now (set_lastMessageAt n' c) c).
Proof.
  unfold findOne_by_userId, update_chat. simpl. intros F.
  induction (chats st) as [|x l IH]; simpl in *; [discriminate|].
  assert (E : has_userId u
                (if same_id (set_lastMessageAt n' c) x
                 then touched now (set_lastMessageAt n' c) x else x)
              = has_userId u x).
  { now destruct (same_id (set_lastMessageAt n' c) x). }
  rewrite E. destruct (has_userId u x); [|auto].
  inversion F; subst x. unfold same_id. simpl.
  now rewrite N.eqb_refl.
Qed.

(** The shape of a run in which no call failed. *)
Lemma success_shape (P : string) (v : Version) (sock : SocketId)
  (d : Payload.t) (s : Script) (st : Store) :
  missing_data d = false ->
  let r := run (send_message P v sock (Some d)) s st in
  any_failure (log r) = false ->
  exists chat userMessageDoc aiMessageDoc,
    findOne_by_userId (js_String (Payload.uid d)) (store r) = Some chat
    /\ messages (store r) = messages st ++ [userMessageDoc; aiMessageDoc]
    /\ persisted_messages (log r) = [userMessageDoc; aiMessageDoc]
    /\ (Message.chatId userMessageDoc = Chat._id chat
        /\ Message.senderType userMessageDoc = "user"
        /\ Message.content userMessageDoc = js_String (Payload.content d)
        /\ Message.senderUid userMessageDoc = Payload.uid d)
    /\ (Message.chatId aiMessageDoc = Chat._id chat
        /\ Message.senderType aiMessageDoc = "ai"
        /\ Message.senderName aiMessageDoc = "K'artz Assistant"
        /\ Message.senderUid aiMessageDoc = None
        /\ Message.content aiMessageDoc <> "")
    /\ In (Generation (fullPrompt P d)
             (inr (Message.content aiMessageDoc))) (log r)
    /\ emitted (log r) = [(sock, "receive_message", formatted aiMessageDoc)].
Proof.
  intros M. destruct v; enter M; crunch.
  all: intros F; try discriminate F.
  all: do 3 eexists.
  all: split;
    [first [ eapply findOne_created; [eassumption | reflexivity]
           | eapply findOne_saved; eassumption ]|].
  all: split; [now rewrite <- app_assoc|].
  all: split; [reflexivity|].
  all: split; [repeat split|].
  all: split; [repeat split; cbn; now apply String.eqb_neq|].
  all: split; [cbn; auto 10 | reflexivity].
Qed.

(** X12. When no call fails, either version stores exactly two messages
    for the event, the user's with the content and uid of the event and
    then the assistant's with the text the generator returned for the
    prompt of the event, which is not empty; and the one reply emitted,
    to the socket of the event, is the projection of that stored
    assistant message. *)
Theorem exchange_succeeds (P : string) (v : Version) (sock : SocketId)
  (d : Payload.t) (s : Script) (st : Store) :
  missing_data d = false ->
  let r := run (send_message P v sock (Some d)) s st in
  any_failure (log r) = false ->
  exists userMessageDoc aiMessageDoc,
    messages (store r) = messages st ++ [userMessageDoc; aiMessageDoc]
    /\ Message.chatId userMessageDoc = Message.chatId aiMessageDoc
    /\ Message.senderType userMessageDoc = "user"
    /\ Message.content userMessageDoc = js_String (Payload.content d)
    /\ Message.senderUid userMessageDoc = Payload.uid d
    /\ Message.senderType aiMessageDoc = "ai"
    /\ Message.senderName aiMessageDoc = "K'artz Assistant"
    /\ Message.content aiMessageDoc <> ""
    /\ In (Generation (fullPrompt P d)
             (inr (Message.content aiMessageDoc))) (log r)
    /\ emitted (log r) = [(sock, "receive_message", formatted aiMessageDoc)].
Proof.
  intros M r F.
  destruct (success_shape P v sock d s st M F)
    as (chat & um & am & _ & E & _ & (U1 & U2 & U3 & U4)
        & (A1 & A2 & A3 & _ & A5) & G & R).
  exists um, am. repeat split; try assumption. congruence.
Qed.

Lemma exchange_succeeds_witness :
  let r := run (send_message system_prompt V2 "s1"
                  (Some (with_senderName "Ann" hello)))
               generator_answers empty_store in
  missing_data (with_senderName "Ann" hello) = false
  /\ any_failure (log r) = false
  /\ exists userMessageDoc aiMessageDoc,
       messages (store r)
       = messages empty_store ++ [userMessageDoc; aiMessageDoc]
       /\ Message.content aiMessageDoc <> "".
Proof.
  assert (M : missing_data (with_senderName "Ann" hello) = false)
    by reflexivity.
  assert (F : any_failure
                (log (run (send_message system_prompt V2 "s1"
                             (Some (with_senderName "Ann" hello)))
                        generator_answers empty_store)) = false)
    by reflexivity.
  cbv zeta. split; [exact M|]. split; [exact F|].
  destruct (exchange_succeeds system_prompt V2 "s1"
              (with_senderName "Ann" hello) generator_answers empty_store
              M F) as (um & am & E & _ & _ & _ & _ & _ & _ & C & _).
  exists um, am. now split.
Defined.

Lemma validated_uid (d : Payload.t) (u : string) :
  missing_data d = false -> Payload.uid d = Some u -> u <> "".
Proof.
  intros M U. destruct (validated_fields d M) as (Hu & _ & _).
  rewrite U in Hu. simpl in Hu. apply negb_true_iff in Hu.
  now apply String.eqb_neq.
Qed.

(** X13. What was exchanged is what the history shows.  After an event
    of identity [u] was handled without a failed call, by either version,
    a history request for [u] whose reads succeed answers 200 with a body
    that holds the projection of both stored messages, so the reply the
    socket got is an entry of the history, and so is the user's message. *)
Theorem history_shows_the_exchange (P : string) (v : Version)
  (sock : SocketId) (d : Payload.t) (s s' : Script) (st : Store)
  (u : string) :
  missing_data d = false ->
  Payload.uid d = Some u ->
  no_faults s' ->
  let r := run (send_message P v sock (Some d)) s st in
  any_failure (log r) = false ->
  exists body,
    result (run (chat_history u) s' (store r)) = inr (json 200 body)
    /\ (forall m, In m (persisted_messages (log r)) ->
                  In (formatted m) body)
    /\ (forall sk ev p, In (sk, ev, p) (emitted (log r)) -> In p body)
    /\ (exists q, In q body
                  /\ Reply.senderType q = "user"
                  /\ Reply.content q = js_String (Payload.content d)).
Proof.
  intros M U N r F.
  destruct (success_shape P v sock d s st M F)
    as (chat & um & am & C & E & L & (U1 & U2 & U3 & _)
        & (A1 & _) & _ & R).
  fold r in C, E, L, R. rewrite U in C. simpl in C.
  eexists. split.
  { apply chat_history_found with (chat := chat);
      [now apply validated_uid with d | assumption | exact C]. }
  assert (S : forall m, In m [um; am] ->
                In (formatted m)
                   (map formatted
                      (sort_by_createdAt
                         (filter (in_chat (Chat._id chat))
                            (messages (store r)))))).
  { intros m Hm. apply in_map.
    apply (Permutation_in _ (Permutation_sym (sort_by_createdAt_perm _))).
    apply filter_In. split.
    - rewrite E. apply in_or_app. now right.
    - unfold in_chat. apply N.eqb_eq.
      destruct Hm as [<-|[<-|[]]]; assumption. }
  split; [|split].
  - rewrite L. exact S.
  - intros sk ev p H. rewrite R in H. destruct H as [H|[]].
    inversion H; subst. apply S. right. now left.
  - exists (formatted um). split; [apply S; now left|]. now split.
Qed.

Lemma history_shows_the_exchange_witness :
  let r := run (send_message system_prompt V1 "s1" (Some hello))
               generator_answers empty_store in
  missing_data hello = false
  /\ Payload.uid hello = Some "u1"
  /\ no_faults []
  /\ any_failure (log r) = false
  /\ exists body,
       result (run (chat_history "u1") [] (store r)) = inr (json 200 body)
       /\ (forall m, In m (persisted_messages (log r)) ->
                     In (formatted m) body).
Proof.
  assert (M : missing_data hello = false) by reflexivity.
  assert (N : no_faults []) by constructor.
  assert (F : any_failure
                (log (run (send_message system_prompt V1 "s1" (Some hello))
                          generator_answers empty_store)) = false)
    by reflexivity.
  cbv zeta. split; [exact M|]. split; [reflexivity|].
  split; [exact N|]. split; [exact F|].
  destruct (history_shows_the_exchange system_prompt V1 "s1" hello
              generator_answers [] empty_store "u1" M eq_refl N F)
    as (body & B & S & _).
  exists body. now split.
Defined.

(** In a list sorted by creation date an earlier document stands before
    a later one. *)
Lemma sorted_earlier_first (l : list Message.t) (a b : Message.t) :
  StronglySorted by_createdAt l ->
  In a l -> In b l ->
  (Message.createdAt a < Message.createdAt b)%Z ->
  exists l1 l2 l3, l = l1 ++ a :: l2 ++ b :: l3.
Proof.
  intros S. induction S as [|x l S IH Hx]; intros Ha Hb Lt.
  - contradiction.
  - destruct Ha as [Ha|Ha]; destruct Hb as [Hb|Hb].
    + subst. lia.
    + subst x. apply in_split in Hb. destruct Hb as (l2 & l3 & ->).
      now exists [], l2, l3.
    + subst x. rewrite Forall_forall in Hx. specialize (Hx a Ha).
      unfold by_createdAt in Hx. lia.
    + destruct (IH Ha Hb Lt) as (l1 & l2 & l3 & ->).
      now exists (x :: l1), l2, l3.
Qed.

(** X14. The history keeps the order of an exchange.  In the setting of
    X13, when the user message was stored at an earlier clock reading
    than the assistant message, the entry of the user message stands
    before the entry of the reply in the body. *)
Theorem history_keeps_the_order (P : string) (v : Version)
  (sock : SocketId) (d : Payload.t) (s s' : Script) (st : Store)
  (u : string) (userMessageDoc aiMessageDoc : Message.t) :
  missing_data d = false ->
  Payload.uid d = Some u ->
  no_faults s' ->
  let r := run (send_message P v sock (Some d)) s st in
  any_failure (log r) = false ->
  persisted_messages (log r) = [userMessageDoc; aiMessageDoc] ->
  (Message.createdAt userMessageDoc < Message.createdAt aiMessageDoc)%Z ->
  exists before between after,
    result (run (chat_history u) s' (store r))
    = inr (json 200 (before ++ formatted userMessageDoc
                            :: between ++ formatted aiMessageDoc :: after)).
Proof.
  intros M U N r F L Lt.
  destruct (success_shape P v sock d s st M F)
    as (chat & um & am & C & E & L' & (U1 & _) & (A1 & _) & _).
  fold r in C, E, L'. rewrite L in L'. inversion L'; subst um am.
  rewrite U in C. simpl in C.
  assert (S : forall m, In m [userMessageDoc; aiMessageDoc] ->
                In m (sort_by_createdAt
                        (filter (in_chat (Chat._id chat))
                           (messages (store r))))).
  { intros m Hm.
    apply (Permutation_in _ (Permutation_sym (sort_by_createdAt_perm _))).
    apply filter_In. split.
    - rewrite E. apply in_or_app. now right.
    - unfold in_chat. apply N.eqb_eq.
      destruct Hm as [<-|[<-|[]]]; assumption. }
  destruct (sorted_earlier_first _ userMessageDoc aiMessageDoc
              (sort_by_createdAt_sorted _)
              (S _ (or_introl eq_refl))
              (S _ (or_intror (or_introl eq_refl))) Lt)
    as (l1 & l2 & l3 & Q).
  exists (map formatted l1), (map formatted l2), (map formatted l3).
  rewrite (chat_history_found u s' (store r) chat);
    [|now apply validated_uid with d | assumption | exact C].
  rewrite Q. rewrite map_app. simpl. rewrite map_app. reflexivity.
Qed.

Lemma history_keeps_the_order_witness :
  let r := run (send_message system_prompt V1 "s1" (Some hello))
               generator_answers empty_store in
  let um := new_message 1%N 1002%Z
              {| Message.f_chatId := 0%N;
                 Message.f_content := Some "Hello";
                 Message.f_senderType := Some "user";
                 Message.f_senderName := Some "Client";
                 Message.f_senderUid := Some "u1" |} in
  let am := new_message 2%N 1004%Z
              {| Message.f_chatId := 0%N;
                 Message.f_content := Some "Hi there";
                 Message.f_senderType := Some "ai";
                 Message.f_senderName := Some "K'artz Assistant";
                 Message.f_senderUid := None |} in
  missing_data hello = false
  /\ no_faults []
  /\ any_failure (log r) = false
  /\ persisted_messages (log r) = [um; am]
  /\ (Message.createdAt um < Message.createdAt am)%Z
  /\ exists before between after,
       result (run (chat_history "u1") [] (store r))
       = inr (json 200 (before ++ formatted um
                               :: between ++ formatted am :: after)).
Proof.
  assert (M : missing_data hello = false) by reflexivity.
  assert (N : no_faults []) by constructor.
  assert (F : any_failure
                (log (run (send_message system_prompt V1 "s1" (Some hello))
                          generator_answers empty_store)) = false)
    by reflexivity.
  assert (Lt : (1002 < 1004)%Z) by reflexivity.
  cbv zeta. split; [exact M|]. split; [exact N|]. split; [exact F|].
  split; [reflexivity|]. split; [exact Lt|].
  exact (history_keeps_the_order system_prompt V1 "s1" hello
           generator_answers [] empty_store "u1" _ _ M eq_refl N F
           eq_refl Lt).
Defined.

(** X16. An event of an identity that has a thread touches that thread
    and nothing else of it: when the save succeeds, the thread of the
    identity afterwards has as [lastMessageAt] the reading of the clock
    the handler took just before, and the id, user id, address, status
    and creation date it had; no thread is created. *)
Theorem existing_thread_is_touched (P : string) (v : Version)
  (sock : SocketId) (d : Payload.t) (s : Script) (st : Store)
  (thread : Chat.t) :
  missing_data d = false ->
  findOne_by_userId (js_String (Payload.uid d)) st = Some thread ->
  let r := run (send_message P v sock (Some d)) s st in
  thread_failed (log r) = false ->
  exists now thread',
    nth_error (log r) 1 = Some (ClockRead now)
    /\ findOne_by_userId (js_String (Payload.uid d)) (store r) = Some thread'
    /\ Chat.lastMessageAt thread' = now
    /\ frozen thread' = frozen thread
    /\ length (chats (store r)) = length (chats st).
Proof.
  intros M T. destruct v; enter M; crunch.
  all: intros F; try discriminate F; try congruence.
  all: repeat match goal with
              | H : inr _ = inr _ |- _ => injection H as H
              | H : _ = Some ?x |- _ =>
                  tryif constr_eq x thread then fail else rewrite T in H
              | H : Some _ = Some ?x |- _ => is_var x; injection H as H
              | H : _ = ?x |- _ => is_var x; subst x
              end.
  all: do 2 eexists; split; [reflexivity|].
  all: split; [eapply findOne_saved; eassumption|].
  all: repeat split; unfold update_chat; now rewrite length_map.
Qed.

Lemma existing_thread_is_touched_witness :
  let r := run (send_message system_prompt V1 "s1" (Some more_info))
               second_round sample_store in
  missing_data more_info = false
  /\ findOne_by_userId "u1" sample_store = Some sample_thread
  /\ thread_failed (log r) = false
  /\ exists now thread',
       nth_error (log r) 1 = Some (ClockRead now)
       /\ findOne_by_userId "u1" (store r) = Some thread'
       /\ Chat.lastMessageAt thread' = now
       /\ frozen thread' = frozen sample_thread
       /\ length (chats (store r)) = length (chats sample_store).
Proof.
  assert (M : missing_data more_info = false) by reflexivity.
  assert (T : findOne_by_userId (js_String (Payload.uid more_info))
                sample_store = Some sample_thread) by reflexivity.
  assert (F : thread_failed
                (log (run (send_message system_prompt V1 "s1"
                             (Some more_info))
                        second_round sample_store)) = false)
    by reflexivity.
  cbv zeta. split; [exact M|]. split; [exact T|]. split; [exact F|].
  exact (existing_thread_is_touched system_prompt V1 "s1" more_info
           second_round sample_store sample_thread M T F).
Defined.

(** ** Display names *)

(** X17. The first version never stores a user message without a display
    name: the name stored is the one of the payload when that is not
    empty, and [Client] when it is absent or empty. *)
Theorem v1_display_name (P : string) (sock : SocketId) (d : Payload.t)
  (s : Script) (st : Store) (m : Message.t) :
  missing_data d = false ->
  In m (persisted_messages (log (run (send_message_v1 P sock (Some d)) s st))) ->
  Message.senderType m = "user" ->
  Message.senderName m <> ""
  /\ (forall name, Payload.senderName d = Some name -> name <> "" ->
                   Message.senderName m = name)
  /\ (Payload.senderName d = None \/ Payload.senderName d = Some "" ->
      Message.senderName m = "Client").
Proof.
  intros M. enter M. crunch.
  all: intros H K; repeat (destruct H as [H|H]); try contradiction.
  all: subst m; cbn in *; try discriminate K.
  all: split; [apply String.eqb_neq; apply js_or_Client|].
  all: split.
  all: try (intros name E N; rewrite E; cbn;
            apply String.eqb_neq in N; now rewrite N).
  all: intros [E|E]; rewrite E; reflexivity.
Qed.

Lemma v1_display_name_witness :
  let m := new_message 1%N 1002%Z
             {| Message.f_chatId := 0%N;
                Message.f_content := Some "Hello";
                Message.f_senderType := Some "user";
                Message.f_senderName := Some "Client";
                Message.f_senderUid := Some "u1" |} in
  missing_data hello = false
  /\ In m (persisted_messages
             (log (run (send_message_v1 system_prompt "s1" (Some hello))
                     generator_answers empty_store)))
  /\ Message.senderType m = "user"
  /\ Message.senderName m <> "".
Proof.
  assert (M : missing_data hello = false) by reflexivity.
  assert (H : In (new_message 1%N 1002%Z
                    {| Message.f_chatId := 0%N;
                       Message.f_content := Some "Hello";
                       Message.f_senderType := Some "user";
                       Message.f_senderName := Some "Client";
                       Message.f_senderUid := Some "u1" |})
                (persisted_messages
                   (log (run (send_message_v1 system_prompt "s1"
                                (Some hello))
                           generator_answers empty_store))))
    by (left; reflexivity).
  cbv zeta. split; [exact M|]. split; [exact H|]. split; [reflexivity|].
  exact (proj1 (v1_display_name system_prompt "s1" hello generator_answers
                  empty_store _ M H eq_refl)).
Defined.

(** X18. The second version needs the display name: for a validated event
    whose [senderName] is absent or empty, whatever the store and the
    world do, no message is stored, the generator is not called and
    nothing is emitted. *)
Theorem v2_needs_display_name (P : string) (sock : SocketId)
  (d : Payload.t) (s : Script) (st : Store) :
  missing_data d = false ->
  Payload.senderName d = None \/ Payload.senderName d = Some "" ->
  let r := run (send_message_v2 P sock (Some d)) s st in
  result r = inr tt
  /\ messages (store r) = messages st
  /\ prompts (log r) = []
  /\ emitted (log r) = []
  /\ any_failure (log r) = true.
Proof.
  intros M N.
  assert (T : truthy (Payload.senderName d) = false)
    by (now apply truthy_spec).
  enter M. crunch.
  all: repeat split.
Qed.

Lemma v2_needs_display_name_witness :
  let r := run (send_message_v2 system_prompt "s1" (Some hello))
               generator_answers empty_store in
  missing_data hello = false
  /\ (Payload.senderName hello = None \/ Payload.senderName hello = Some "")
  /\ result r = inr tt.
Proof.
  assert (M : missing_data hello = false) by reflexivity.
  assert (N : Payload.senderName hello = None
              \/ Payload.senderName hello = Some "")
    by (left; reflexivity).
  cbv zeta. split; [exact M|]. split; [exact N|].
  exact (proj1 (v2_needs_display_name system_prompt "s1" hello
                  generator_answers empty_store M N)).
Defined.

(** ** Errors that leave a handler *)

(** X19. The only error that leaves either handler is the [TypeError] of
    an event that came without a payload object, thrown by the guard
    before any call: then nothing was read, written or emitted.  An event
    with a payload object always returns. *)
Theorem only_the_absent_payload_throws (P : string) (v : Version)
  (sock : SocketId) (data : option Payload.t) (s : Script) (st : Store)
  (e : Error) :
  result (run (send_message P v sock data) s st) = inl e ->
  data = None
  /\ e = TypeError
  /\ log (run (send_message P v sock data) s st) = []
  /\ store (run (send_message P v sock data) s st) = st.
Proof.
  destruct data as [d|].
  - intros H. destruct (send_message_never_throws P v sock d s st) as [a E].
    rewrite E in H. discriminate H.
  - rewrite absent_payload_throws. simpl. intros H. inversion H. auto.
Qed.

Lemma only_the_absent_payload_throws_witness :
  result (run (send_message system_prompt V1 "s1" None) [] empty_store)
  = inl TypeError
  /\ log (run (send_message system_prompt V1 "s1" None) [] empty_store) = [].
Proof.
  assert (H : result (run (send_message system_prompt V1 "s1" None) []
                        empty_store) = inl TypeError) by reflexivity.
  split; [exact H|].
  exact (proj1 (proj2 (proj2
    (only_the_absent_payload_throws system_prompt V1 "s1" None []
       empty_store TypeError H)))).
Defined.

(** ** Handlers that run at the same time *)

Lemma nth_error_cut {A} (l : list A) (i : nat) (x : A) :
  nth_error l i = Some x -> l = firstn i l ++ x :: skipn (S i) l.
Proof.
  revert i. induction l as [|y l IH]; intros [|i] H; simpl in *;
    try discriminate.
  - now inversion H.
  - f_equal. now apply IH.
Qed.

Lemma node_steps_one (P : string) (n n' : Node) :
  node_step P n n' -> node_steps P n n'.
Proof. intros H. eapply steps_more; [apply steps_none | exact H]. Qed.

Lemma node_steps_trans (P : string) (n1 n2 n3 : Node) :
  node_steps P n1 n2 -> node_steps P n2 n3 -> node_steps P n1 n3.
Proof.
  intros H12 H23. induction H23 as [n|n2 n3 n4 H23 IH H34]; [assumption|].
  eapply steps_more; [now apply IH | exact H34].
Qed.

(** A turn of the schedule is a step of the node, or none. *)
Lemma advance_steps (P : string) (i : nat) (c : Choice) (n : Node) :
  node_steps P n (advance i c n).
Proof.
  unfold advance.
  destruct (nth_error (in_flight n) i) as [p|] eqn:E; [|apply steps_none].
  apply nth_error_cut in E.
  destruct p as [a|e|X op k]; apply node_steps_one.
  - now apply handler_returns with (Ret a).
  - now apply handler_returns with (Throw e).
  - now apply call_completes.
Qed.

Lemma schedule_steps (P : string) (turns : list (nat * Choice)) :
  forall n, node_steps P n (schedule turns n).
Proof.
  induction turns as [|t turns IH]; intros n; simpl.
  - apply steps_none.
  - eapply node_steps_trans; [apply advance_steps | apply IH].
Qed.

Lemma exec_appends_messages {X} (op : Op X) (c : Choice) (st : Store) :
  exists more, messages (snd (exec op c st)) = messages st ++ more.
Proof.
  destruct op; simpl;
    repeat match goal with
           | |- context [if ?b then _ else _] => destruct b
           end; simpl;
    try (exists []; now rewrite app_nil_r).
  eexists. reflexivity.
Qed.

(** X15. However the handlers of a node interleave at their awaits, and
    whatever events arrive meanwhile, the store stays sound: from a store
    with distinct user ids and schema-valid documents every reachable
    store has at most one thread per identity, holds schema-valid
    documents only, and has the messages it had, in place, followed by
    the new ones. *)
Theorem handlers_in_flight_keep_the_store (P : string) (n n' : Node) :
  unique_threads (node_store n) ->
  store_valid (node_store n) ->
  node_steps P n n' ->
  (forall u, length (threads_of u (node_store n')) <= 1)
  /\ store_valid (node_store n')
  /\ exists more,
       messages (node_store n') = messages (node_store n) ++ more.
Proof.
  intros U V H.
  assert (I : unique_threads (node_store n')
              /\ store_valid (node_store n')
              /\ exists more,
                   messages (node_store n') = messages (node_store n) ++ more).
  { induction H as [n|n1 n2 n3 H12 IH H23].
    - repeat split; try assumption; try apply V.
      exists []. now rewrite app_nil_r.
    - destruct (IH U V) as (U2 & V2 & more & E).
      inversion H23; subst; simpl.
      + repeat split; try assumption; try apply V2. now exists more.
      + split; [now apply exec_unique_threads|].
        split; [now apply exec_store_valid|].
        destruct (exec_appends_messages op c (node_store n2)) as [m2 E2].
        exists (more ++ m2). now rewrite E2, E, app_assoc.
      + repeat split; try assumption; try apply V2. now exists more. }
  destruct I as (U' & V' & A).
  split; [|split; assumption].
  intros u. now apply unique_threads_at_most_one.
Qed.

Lemma handlers_in_flight_keep_the_store_witness :
  unique_threads (node_store two_arrivals)
  /\ store_valid (node_store two_arrivals)
  /\ node_steps system_prompt two_arrivals (schedule race two_arrivals)
  /\ (forall u,
        length (threads_of u (node_store (schedule race two_arrivals))) <= 1).
Proof.
  assert (U : unique_threads (node_store two_arrivals)) by constructor.
  assert (V : store_valid (node_store two_arrivals))
    by (split; constructor).
  assert (S : node_steps system_prompt two_arrivals
                (schedule race two_arrivals))
    by apply schedule_steps.
  split; [exact U|]. split; [exact V|]. split; [exact S|].
  exact (proj1 (handlers_in_flight_keep_the_store system_prompt
                  two_arrivals (schedule race two_arrivals) U V S)).
Defined.

(** Two first messages of one identity that race: both handlers find no
    thread, the first creates it, the second is turned down by the unique
    index and answers with the fallback; its user message is not stored. *)
Example race_on_the_first_message :
  let n := schedule race two_arrivals in
  in_flight n = []
  /\ map Chat.userId (chats (node_store n)) = ["u1"]
  /\ map (fun m => (Message.senderType m, Message.content m))
         (messages (node_store n))
     = [("user", "Hello"); ("ai", "Hi there")]
  /\ map (fun e => (fst (fst e), Reply.senderName (snd e)))
         (emitted (journal n))
     = [("s1", "K'artz Assistant"); ("s2", "System Error")]
  /\ nth_error (journal n) 3
     = Some (ThreadCreate
               {| Chat.f_userId := Some "u1";
                  Chat.f_userEmail := Some "a@b.com";
                  Chat.f_status := Some "ai_active" |}
               (inl DuplicateKey)).
Proof. repeat split. Qed.

(** A handler that runs alone in a node runs as [run] says: the node ends
    with the store of the run and the journal grown by its log. *)
Lemma run_is_an_interleaving (P : string) (p : Prog unit) :
  forall (s : Script) (st : Store) (others : list (Prog unit))
         (j : list Action),
    node_steps P
      {| node_store := st; in_flight := others ++ [p]; journal := j |}
      {| node_store := store (run p s st); in_flight := others;
         journal := j ++ log (run p s st) |}.
Proof.
  induction p as [a|e|X op k IH]; intros s st others j; simpl.
  - rewrite app_nil_r. apply node_steps_one.
    replace others with (others ++ []) at 2 by apply app_nil_r.
    now apply handler_returns with (Ret a).
  - rewrite app_nil_r. apply node_steps_one.
    replace others with (others ++ []) at 2 by apply app_nil_r.
    now apply handler_returns with (Throw e).
  - eapply node_steps_trans.
    + apply node_steps_one.
      apply (call_completes P
               {| node_store := st; in_flight := others ++ [Do op k];
                  journal := j |}
               others X op k [] (next_choice s)).
      reflexivity.
    + simpl.
      replace (j ++ record_call op (fst (exec op (next_choice s) st))
                 :: log (run (k (fst (exec op (next_choice s) st))) (tl s)
                           (snd (exec op (next_choice s) st))))
        with ((j ++ [record_call op (fst (exec op (next_choice s) st))])
              ++ log (run (k (fst (exec op (next_choice s) st))) (tl s)
                        (snd (exec op (next_choice s) st))))
        by (now rewrite <- app_assoc).
      apply IH.
Qed.

(** ** The first event of an identity *)

(** X20. The first event of an identity creates its thread: when no
    thread has the uid of a validated event and step 1 does not fail,
    exactly one thread is added, at the end, with the uid and the address
    of the event and the status [ai_active]; it is the thread a lookup of
    the uid finds afterwards. *)
Theorem first_event_creates_the_thread (P : string) (v : Version)
  (sock : SocketId) (d : Payload.t) (s : Script) (st : Store) :
  missing_data d = false ->
  findOne_by_userId (js_String (Payload.uid d)) st = None ->
  let r := run (send_message P v sock (Some d)) s st in
  thread_failed (log r) = false ->
  exists thread,
    chats (store r) = chats st ++ [thread]
    /\ findOne_by_userId (js_String (Payload.uid d)) (store r) = Some thread
    /\ Chat.userId thread = js_String (Payload.uid d)
    /\ Chat.userEmail thread = js_String (Payload.email d)
    /\ Chat.status thread = "ai_active".
Proof.
  intros M T. destruct v; enter M; crunch.
  all: intros F; try discriminate F; try congruence.
  all: eexists; split; [reflexivity|].
  all: split; [eapply findOne_created; [exact T | reflexivity]|].
  all: repeat split.
Qed.

Lemma first_event_creates_the_thread_witness :
  let r := run (send_message system_prompt V1 "s1" (Some help))
               generator_fails sample_store in
  missing_data help = false
  /\ findOne_by_userId "u2" sample_store = None
  /\ thread_failed (log r) = false
  /\ exists thread,
       chats (store r) = chats sample_store ++ [thread]
       /\ findOne_by_userId "u2" (store r) = Some thread
       /\ Chat.userId thread = "u2"
       /\ Chat.userEmail thread = "c@d.com"
       /\ Chat.status thread = "ai_active".
Proof.
  assert (M : missing_data help = false) by reflexivity.
  assert (T : findOne_by_userId (js_String (Payload.uid help)) sample_store
              = None) by reflexivity.
  assert (F : thread_failed
                (log (run (send_message system_prompt V1 "s1" (Some help))
                        generator_fails sample_store)) = false)
    by reflexivity.
  cbv zeta. split; [exact M|]. split; [exact T|]. split; [exact F|].
  exact (first_event_creates_the_thread system_prompt V1 "s1" help
           generator_fails sample_store M T F).
Defined.

(** ** Other identities *)

Lemma findOne_skips_created (u : string) (st : Store) (c : Chat.t)
  (ms : list Message.t) (n : ObjectId) :
  Chat.userId c <> u ->
  findOne_by_userId u
    {| chats := chats st ++ [c]; messages := ms; next_id := n |}
  = findOne_by_userId u st.
Proof.
  unfold findOne_by_userId. simpl. intros E.
  induction (chats st) as [|x l IH]; simpl.
  - unfold has_userId. apply String.eqb_neq in E. now rewrite E.
  - now destruct (has_userId u x).
Qed.

Lemma findOne_id_saved (u : string) (st : Store) (doc : Chat.t) (now : Z)
  (ms : list Message.t) (n : ObjectId) :
  option_map Chat._id
    (findOne_by_userId u
       {| chats := update_chat now doc (chats st);
          messages := ms; next_id := n |})
  = option_map Chat._id (findOne_by_userId u st).
Proof.
  unfold findOne_by_userId, update_chat. simpl.
  induction (chats st) as [|x l IH]; simpl; [reflexivity|].
  assert (E : has_userId u (if same_id doc x then touched now doc x else x)
              = has_userId u x) by (now destruct (same_id doc x)).
  rewrite E. destruct (has_userId u x); [|exact IH].
  now destruct (same_id doc x).
Qed.

Lemma same_id_same_thread (l : list Chat.t) (a b : Chat.t) :
  NoDup (map Chat._id l) ->
  In a l -> In b l -> Chat._id a = Chat._id b -> a = b.
Proof.
  induction l as [|x l IH]; simpl; intros N Ha Hb E; [contradiction|].
  inversion N as [|y ys Hnotin Hrest]; subst.
  destruct Ha as [Ha|Ha]; destruct Hb as [Hb|Hb]; subst.
  - reflexivity.
  - exfalso. apply Hnotin. rewrite E. now apply in_map.
  - exfalso. apply Hnotin. rewrite <- E. now apply in_map.
  - now apply IH.
Qed.

Lemma fresh_id_differs (st : Store) (u : string) (c : Chat.t) :
  ids_sound st ->
  findOne_by_userId u st = Some c ->
  N.eqb (next_id st) (Chat._id c) = false.
Proof.
  intros [_ F] H. apply findOne_some in H. destruct H as [Hin _].
  rewrite Forall_forall in F. specialize (F c Hin).
  apply N.eqb_neq. lia.
Qed.

Lemma other_thread_id_differs (st : Store) (u u' : string) (t c : Chat.t) :
  ids_sound st ->
  u <> u' ->
  findOne_by_userId u st = Some t ->
  findOne_by_userId u' st = Some c ->
  N.eqb (Chat._id t) (Chat._id c) = false.
Proof.
  intros [N _] D Ht Hc.
  apply findOne_some in Ht. destruct Ht as [Ht Eu].
  apply findOne_some in Hc. destruct Hc as [Hc Eu'].
  apply N.eqb_neq. intros E.
  apply D. rewrite <- Eu, <- Eu'.
  now rewrite (same_id_same_thread (chats st) t c N Ht Hc E).
Qed.

(** An event leaves the thread of another identity its id and its
    messages. *)
Lemma other_thread_kept (P : string) (v : Version) (sock : SocketId)
  (d : Payload.t) (s : Script) (st : Store) (u' : string) :
  missing_data d = false ->
  js_String (Payload.uid d) <> u' ->
  ids_sound st ->
  let r := run (send_message P v sock (Some d)) s st in
  option_map Chat._id (findOne_by_userId u' (store r))
  = option_map Chat._id (findOne_by_userId u' st)
  /\ (forall c, findOne_by_userId u' st = Some c ->
                filter (in_chat (Chat._id c)) (messages (store r))
                = filter (in_chat (Chat._id c)) (messages st)).
Proof.
  intros M D I. destruct v; enter M; crunch.
  all: split;
    [ first [ reflexivity
            | rewrite findOne_skips_created; [reflexivity | exact D]
            | apply findOne_id_saved ]
    | ].
  all: intros c Hother; rewrite ?filter_app; cbn; unfold in_chat; cbn.
  all: rewrite ?(fresh_id_differs st u' c I Hother).
  all: repeat erewrite other_thread_id_differs by eassumption.
  all: now rewrite ?app_nil_r.
Qed.

Lemma chat_history_not_found (uid : string) (s : Script) (st : Store) :
  uid <> "" ->
  no_faults s ->
  findOne_by_userId uid st = None ->
  result (run (chat_history uid) s st) = inr (json 200 []).
Proof.
  intros Huid Hs F.
  destruct (no_faults_next s Hs) as [F1 _].
  unfold chat_history. apply String.eqb_neq in Huid. rewrite Huid.
  cbn. rewrite F1. cbn. now rewrite F.
Qed.

(** X21. An event of one identity leaves the history of every other
    identity as it was: in a store whose threads have distinct ids handed
    out by the store, after a validated event of uid [u] was handled, by
    either version and whatever happened to it, a history request for
    [u' <> u] is answered as it was before. *)
Theorem other_histories_untouched (P : string) (v : Version)
  (sock : SocketId) (d : Payload.t) (s s1 s2 : Script) (st : Store)
  (u' : string) :
  missing_data d = false ->
  js_String (Payload.uid d) <> u' ->
  ids_sound st ->
  no_faults s1 ->
  no_faults s2 ->
  result (run (chat_history u') s2
            (store (run (send_message P v sock (Some d)) s st)))
  = result (run (chat_history u') s1 st).
Proof.
  intros M D I N1 N2.
  destruct (other_thread_kept P v sock d s st u' M D I) as [A B].
  destruct (String.eqb u' "") eqn:E.
  - unfold chat_history. now rewrite E.
  - apply String.eqb_neq in E.
    destruct (findOne_by_userId u' st) as [c|] eqn:F.
    + destruct (findOne_by_userId u'
                  (store (run (send_message P v sock (Some d)) s st)))
        as [c'|] eqn:F'; [|discriminate A].
      simpl in A. inversion A as [A'].
      rewrite (chat_history_found u' s2 _ c' E N2 F').
      rewrite (chat_history_found u' s1 st c E N1 F).
      now rewrite A', (B c eq_refl).
    + destruct (findOne_by_userId u'
                  (store (run (send_message P v sock (Some d)) s st)))
        as [c'|] eqn:F'; [discriminate A|].
      rewrite (chat_history_not_found u' s2 _ E N2 F').
      now rewrite (chat_history_not_found u' s1 st E N1 F).
Qed.

Lemma other_histories_untouched_witness :
  missing_data help = false
  /\ js_String (Payload.uid help) <> "u1"
  /\ ids_sound sample_store
  /\ no_faults []
  /\ result (run (chat_history "u1") []
               (store (run (send_message system_prompt V1 "s1" (Some help))
                         generator_answers sample_store)))
     = result (run (chat_history "u1") [] sample_store).
Proof.
  assert (M : missing_data help = false) by reflexivity.
  assert (D : js_String (Payload.uid help) <> "u1") by discriminate.
  assert (I : ids_sound sample_store).
  { split; simpl.
    - constructor; [intros []|constructor].
    - constructor; [reflexivity|constructor]. }
  assert (N : no_faults []) by constructor.
  split; [exact M|]. split; [exact D|]. split; [exact I|]. split; [exact N|].
  exact (other_histories_untouched system_prompt V1 "s1" help
           generator_answers [] [] sample_store "u1" M D I N N).
Defined.

(** Fresh ids stay fresh: every call keeps the ids of the threads
    distinct and below the next id of the store. *)
Lemma exec_ids_sound {X} (op : Op X) (c : Choice) (st : Store) :
  ids_sound st -> ids_sound (snd (exec op c st)).
Proof.
  intros [N F].
  assert (W : Forall (fun x => (Chat._id x < N.succ (next_id st))%N)
                (chats st)).
  { eapply Forall_impl; [|exact F]. simpl. intros x Hx. lia. }
  destruct op; simpl;
    repeat match goal with
           | |- context [if ?b then _ else _] => destruct b eqn:?
           end; simpl; try (split; assumption).
  - split; simpl.
    + rewrite map_app. simpl. apply NoDup_app; auto.
      * constructor; [intros []|constructor].
      * intros i Hi [E|[]]. subst i.
        apply in_map_iff in Hi. destruct Hi as (x & Ex & Hx).
        rewrite Forall_forall in F. specialize (F x Hx). lia.
    + apply Forall_app. split; [exact W|].
      constructor; [simpl; lia | constructor].
  - split; simpl.
    + unfold update_chat. rewrite map_map.
      erewrite map_ext; [exact N|].
      intros x. now destruct (same_id doc x).
    + unfold update_chat. apply Forall_map.
      eapply Forall_impl; [|exact F].
      intros x Hx. now destruct (same_id doc x).
Qed.

Lemma handlers_keep_ids_sound (P : string) (calls : list Call) :
  forall st, ids_sound st -> ids_sound (handle_all P calls st).
Proof.
  induction calls as [|c calls IH]; intros st H; simpl; [exact H|].
  apply IH. unfold handle. apply run_invariant; [|exact H].
  intros X op ch st'. apply exec_ids_sound.
Qed.
